(** * runway.cfngin.hooks.base: the hook base class and its stack actions

  A shallow embedding of [src/runway/cfngin/hooks/base.py]: the [Hook]
  class (constructor, [tags], [deploy_stack], [destroy_stack],
  [_log_stack], [_run_stack_action], [_wait_for_stack]) and the two action
  classes [HookDeployAction] and [HookDestroyAction].

  Python dictionaries are finite maps, the logger and the calls of
  [action.run] are events appended to a trace, exceptions are a result
  constructor, and the [while True] loop of [_wait_for_stack] is a fixpoint
  on a fuel argument. The methods are embedded a second time with the
  objects that the action shares with the hook (the stack, the context, the
  provider) written back after every call; the two embeddings agree on an
  action that writes nothing. *)

From stdpp Require Import gmap strings list.
From Stdlib Require Import ZArith.

Open Scope Z_scope.

(** ** Collaborators that live outside [hooks/base.py] *)

(** Modelled from the spec: [runway/cfngin/status.py] is not part of the
  source at hand. A Status has a stable [code], a short [name] and an
  optional free-text [reason]. *)
Module Status.
Record t : Type := mk { name : string; code : Z; reason : option string }.

(** Modelled from the spec: equality of two statuses is by [code] alone. *)
Definition eqb (a b : t) : bool := bool_decide (code a = code b).
End Status.

(** The five module-level constants that [base.py] imports from
  [..status]. Only what the spec says of them is assumed at each theorem:
  their codes differ. *)
Class StatusConstants : Type := {
  COMPLETE : Status.t;
  FAILED : Status.t;
  PENDING : Status.t;
  SKIPPED : Status.t;
  SUBMITTED : Status.t
}.

Definition distinct_codes `{StatusConstants} : Prop :=
  NoDup (Status.code <$> [PENDING; SUBMITTED; COMPLETE; SKIPPED; FAILED]).

(** Modelled from the spec: the constants with the names the spec gives
  them, no reason, and pairwise different codes. *)
Definition status_constants : StatusConstants := {|
  COMPLETE := Status.mk "complete" 2 None;
  FAILED := Status.mk "failed" 4 None;
  PENDING := Status.mk "pending" 0 None;
  SKIPPED := Status.mk "skipped" 3 None;
  SUBMITTED := Status.mk "submitted" 1 None
|}.

(** Modelled from the spec: the context supplies the ambient tags. *)
Module CfnginContext.
Record t : Type := mk { tags : gmap string string }.
End CfnginContext.

(** [HookArgsBaseModel]: the only field of the base model is [tags]. *)
Module HookArgsBaseModel.
Record t : Type := mk { tags : gmap string string }.

(** [parse_obj(kwargs)]: a missing [tags] key takes the default [{}]. *)
Definition parse_obj (kwargs : gmap string (gmap string string)) : t :=
  mk (default ∅ (kwargs !! "tags")).
End HookArgsBaseModel.

(** Modelled from the spec: [runway/cfngin/stack.py] is not part of the
  source at hand. A stack has a [name], the fully-qualified name [fqn]
  used in error messages, the tags of its definition and an optional
  blueprint. *)
Module Stack.
Record t {Blueprint : Type} : Type := mk {
  name : string;
  fqn : string;
  tags : gmap string string;
  _blueprint : option Blueprint
}.
Arguments t : clear implicits.
Arguments mk {Blueprint} _ _ _ _.
End Stack.

(** ** Effects *)

(** Exceptions that leave the methods of [Hook]. [ProviderError] stands for
  whatever an action raises; [base.py] catches nothing. *)
Inductive Exn : Type :=
  | ValueError (msg : string)
  | StackFailed (stack_name : string) (status_reason : option string)
  | ProviderError (msg : string).

(** The outcome of a call. [OutOfFuel] is not a Python outcome: it marks a
  run of the model that was cut before the loop ended. *)
Inductive Res (A : Type) : Type :=
  | Ok (a : A)
  | Raise (e : Exn)
  | OutOfFuel.
Arguments Ok {A} a.
Arguments Raise {A} e.
Arguments OutOfFuel {A}.

(** Methods of [RunwayLogger] used by [base.py]. *)
Inductive Level : Type := DEBUG | INFO | NOTICE | SUCCESS | ERROR.

(** What a call of a method of [Hook] does to the outside, in order:
  a line given to [LOGGER], a call [action.run(stack=.., status=..)], or a
  [time.sleep] of some milliseconds. *)
Inductive Event {Blueprint : Type} : Type :=
  | EvLog (lvl : Level) (msg : string)
  | EvRun (action_name : string) (stk : Stack.t Blueprint) (status : Status.t)
  | EvSleep (ms : Z).
Arguments Event : clear implicits.

Section HookBase.
Context {Provider Blueprint Ext : Type}.
Context `{StatusConstants}.

Abbreviation Stack := (Stack.t Blueprint).

(** An action object: [run] works on the provider's world [Ext], returns
    a status or raises, and leaves a new world ([OutOfFuel] is a call that
    does not come back). *)
Record Action : Type := mkAction {
  action_name : string;
  run : Stack → Status.t → Ext → Res Status.t * Ext
}.

(** [deploy.Action._launch_stack] and [._destroy_stack], inherited by the
    hook actions from a class outside this file. *)
Variable _launch_stack _destroy_stack :
  CfnginContext.t → Provider → Stack → Status.t → Ext → Res Status.t * Ext.

(** [HookDeployAction(context, provider)]: [run] is [_launch_stack] on the
    provider given at construction. *)
Definition HookDeployAction (context : CfnginContext.t) (provider : Provider)
  : Action :=
  mkAction "HookDeployAction" (_launch_stack context provider).

(** [HookDestroyAction(context, provider)]: the same, with [run] changed
    to [_destroy_stack]. *)
Definition HookDestroyAction (context : CfnginContext.t) (provider : Provider)
  : Action :=
  mkAction "HookDestroyAction" (_destroy_stack context provider).

(** The attributes of a [Hook] instance. *)
Record Hook : Type := mkHook {
  args : HookArgsBaseModel.t;
  blueprint : option Blueprint;
  context : CfnginContext.t;
  provider : Provider;
  stack : option Stack;
  stack_name : string;
  _deploy_action : Action;
  _destroy_action : Action
}.

(** [dict.update]: the keys of [other] overwrite those of [d]. *)
Definition dict_update (d other : gmap string string) : gmap string string :=
  other ∪ d.

(** [Hook.__init__(context, provider, **kwargs)]. The class attributes
    [blueprint = None], [stack = None], [stack_name = "stack"] are the
    values an instance starts with. *)
Definition __init__ (context : CfnginContext.t) (provider : Provider)
    (kwargs : gmap string (gmap string string)) : Hook :=
  let kwargs :=
    match kwargs !! "tags" with
    | Some _ => kwargs
    | None => <["tags" := ∅]> kwargs
    end in
  let args := HookArgsBaseModel.parse_obj kwargs in
  let args :=
    HookArgsBaseModel.mk
      (dict_update (HookArgsBaseModel.tags args) (CfnginContext.tags context)) in
  mkHook args None context provider None "stack"
         (HookDeployAction context provider)
         (HookDestroyAction context provider).

(** The [tags] property: [dict(self.context.tags, **self.args.tags)],
    the mapping handed to troposphere's [Tags]. *)
Definition tags (self : Hook) : gmap string string :=
  dict_update (CfnginContext.tags (context self))
              (HookArgsBaseModel.tags (args self)).

(** [Hook.generate_stack()] without extra keyword arguments. The
    fully-qualified name comes from the context, so it is an argument
    here. *)
Definition generate_stack (self : Hook) (get_fqn : string → string) : Stack :=
  Stack.mk (stack_name self) (get_fqn (stack_name self))
           (HookArgsBaseModel.tags (args self)) (blueprint self).

(** *** The state the methods run in *)

Record World : Type := mkWorld {
  hook : Hook;
  ext : Ext;
  events : list (Event Blueprint)
}.

Definition M (A : Type) : Type := World → Res A * World.

Definition ret {A} (a : A) : M A := λ w, (Ok a, w).
Definition raise {A} (e : Exn) : M A := λ w, (Raise e, w).
Definition out_of_fuel {A} : M A := λ w, (OutOfFuel, w).
Definition bind {A B} (m : M A) (k : A → M B) : M B :=
  λ w, match m w with
       | (Ok a, w') => k a w'
       | (Raise e, w') => (Raise e, w')
       | (OutOfFuel, w') => (OutOfFuel, w')
       end.

Definition get_self : M Hook := λ w, (Ok (hook w), w).
Definition emit (e : Event Blueprint) : M unit :=
  λ w, (Ok tt, mkWorld (hook w) (ext w) (events w ++ [e])).

(** [action.run(stack=stack, status=status)]: the call is recorded, then
    the action works on the provider's world. *)
Definition call_run (action : Action) (stk : Stack) (status : Status.t)
  : M Status.t :=
  λ w, let '(r, x) := run action stk status (ext w) in
       (r, mkWorld (hook w) x
                   (events w ++ [EvRun (action_name action) stk status])).
#[local] Instance M_ret : MRet M := @ret.
#[local] Instance M_bind : MBind M := λ A B k m, bind m k.

(** ** The methods of [Hook] *)

(** Python truth of an optional string: [None] and the empty string are false. *)
Definition truthy (s : option string) : bool :=
  match s with
  | Some r => bool_decide (r ≠ EmptyString)
  | None => false
  end.

(** [x or y] on values that are [None] or an object that is always true
    (a [Stack] or a [Status] defines neither [__bool__] nor [__len__]). *)
Definition or_else {A} (x y : option A) : option A :=
  match x with
  | Some a => Some a
  | None => y
  end.

(** The text [_log_stack] builds. *)
Definition log_message (stk : Stack) (status : Status.t) : string :=
  let msg := Stack.name stk +:+ ":" +:+ Status.name status in
  match Status.reason status with
  | Some r => if truthy (Some r) then msg +:+ " (" +:+ r +:+ ")" else msg
  | None => msg
  end.

(** The logger method [_log_stack] picks. *)
Definition log_level (status : Status.t) : Level :=
  if bool_decide (Status.code status = Status.code SUBMITTED) then NOTICE
  else if bool_decide (Status.code status = Status.code COMPLETE) then SUCCESS
  else if bool_decide (Status.code status = Status.code FAILED) then ERROR
  else INFO.

(** [Hook._log_stack(stack, status)]. *)
Definition _log_stack (stk : Stack) (status : Status.t) : M unit :=
  emit (EvLog (log_level status) (log_message stk status)).

(** [status in (COMPLETE, FAILED)]. *)
Definition terminal (status : Status.t) : bool :=
  Status.eqb status COMPLETE || Status.eqb status FAILED.

(** [(till_reason and status.reason) and status.reason == till_reason]. *)
Definition reached (till_reason : option string) (status : Status.t) : bool :=
  (truthy till_reason && truthy (Status.reason status))
  && bool_decide (Status.reason status = till_reason).

(** [last_status and last_status.reason != status.reason]. *)
Definition changed (last_status : option Status.t) (status : Status.t) : bool :=
  match last_status with
  | Some l => bool_decide (Status.reason l ≠ Status.reason status)
  | None => false
  end.

(** The body of [while True:] in [_wait_for_stack], on the loop's two
    variables [last_status] and [status]. One unit of fuel is one turn. *)
Fixpoint _wait_for_stack_loop (fuel : nat) (action : Action) (stk : Stack)
    (till_reason : option string) (last_status : option Status.t)
    (status : Status.t) : M Status.t :=
  match fuel with
  | O => out_of_fuel
  | S fuel =>
    if terminal status then ret status
    else if reached till_reason status then ret status
    else
      last_status ←
        (if changed last_status status
         then _log_stack stk status;; ret (Some status)
         else ret last_status);
      emit (EvLog DEBUG "waiting for stack to complete...");;
      status ← call_run action stk status;
      _wait_for_stack_loop fuel action stk till_reason last_status status
  end.

(** [Hook._wait_for_stack(action, last_status, stack, till_reason)]. *)
Definition _wait_for_stack (fuel : nat) (action : Action)
    (last_status : option Status.t) (stk : option Stack)
    (till_reason : option string) : M Status.t :=
  let status := default SUBMITTED last_status in
  self ← get_self;
  match or_else stk (stack self) with
  | None => raise (ValueError "stack required")
  | Some stk =>
    status ← _wait_for_stack_loop fuel action stk till_reason last_status status;
    _log_stack stk status;;
    if Status.eqb status FAILED
    then raise (StackFailed (Stack.fqn stk) (Status.reason status))
    else ret status
  end.

(** [Hook._run_stack_action(action, stack, wait)]. *)
Definition _run_stack_action (fuel : nat) (action : Action)
    (stk : option Stack) (wait : bool) : M Status.t :=
  self ← get_self;
  match or_else stk (stack self) with
  | None => raise (ValueError "stack required")
  | Some stk =>
    status ← call_run action stk PENDING;
    _log_stack stk status;;
    if wait && negb (Status.eqb status SKIPPED)
    then _wait_for_stack fuel action (Some status) (Some stk) None
    else ret status
  end.

(** [Hook.deploy_stack(stack, wait)]. *)
Definition deploy_stack (fuel : nat) (stk : option Stack) (wait : bool)
  : M Status.t :=
  self ← get_self;
  _run_stack_action fuel (_deploy_action self) stk wait.

(** [Hook.destroy_stack(stack, wait)]. *)
Definition destroy_stack (fuel : nat) (stk : option Stack) (wait : bool)
  : M Status.t :=
  self ← get_self;
  _run_stack_action fuel (_destroy_action self) stk wait.

(** [Hook.get_template_description(suffix)]: the template is filled by
    [str.format] with the module of the hook's class, [module_name] here,
    and, when [suffix] is true, with the suffix. *)
Definition get_template_description (module_name : string)
    (suffix : option string) : string :=
  let template := "Automatically generated by " +:+ module_name in
  match suffix with
  | Some s => if truthy (Some s) then template +:+ " - " +:+ s else template
  | None => template
  end.

(** *** The methods when the action writes to the objects it shares

    Python hands [action.run] the stack object itself, and the action was
    built with the hook's own context and provider. What the action does
    to them is code outside [base.py]. Here [run] tells how it leaves
    them, and the hook sees it. *)

(** The objects of the hook that a call of [action.run] can write to. *)
Record Shared : Type := mkShared {
  shared_stack : Stack;
  shared_context : CfnginContext.t;
  shared_provider : Provider
}.

(** An action whose [run] also gives the shared objects as it leaves
    them. *)
Record SharingAction : Type := mkSharingAction {
  sharing_name : string;
  sharing_run : Shared → Status.t → Ext → Res Status.t * Ext * Shared
}.

(** An [Action] seen as a sharing action: it leaves the objects as they
    are. *)
Definition writes_nothing (action : Action) : SharingAction :=
  mkSharingAction (action_name action)
    (λ sh status x,
       let '(r, x') := run action (shared_stack sh) status x in (r, x', sh)).

(** The hook after a call that left the shared objects as [sh]. [held]
    tells that the stack handed to the action is the object in
    [self.stack]; a stack passed by the caller is another object. *)
Definition write_back (held : bool) (sh : Shared) (self : Hook) : Hook :=
  mkHook (args self) (blueprint self) (shared_context sh)
         (shared_provider sh)
         (if held then Some (shared_stack sh) else stack self)
         (stack_name self) (_deploy_action self) (_destroy_action self).

(** [action.run(stack=stack, status=status)] on shared objects: the local
    variable [stack] still names the object, so the call gives back its
    new content beside the status. *)
Definition call_run_shared (held : bool) (action : SharingAction)
    (stk : Stack) (status : Status.t) : M (Stack * Status.t) :=
  λ w, let sh := mkShared stk (context (hook w)) (provider (hook w)) in
       let '(r, x, sh') := sharing_run action sh status (ext w) in
       (match r with
        | Ok s => Ok (shared_stack sh', s)
        | Raise e => Raise e
        | OutOfFuel => OutOfFuel
        end,
        mkWorld (write_back held sh' (hook w)) x
                (events w ++ [EvRun (sharing_name action) stk status])).

(** The loop of [_wait_for_stack], as [_wait_for_stack_loop]. *)
Fixpoint _wait_for_stack_loop_shared (fuel : nat) (held : bool)
    (action : SharingAction) (stk : Stack) (till_reason : option string)
    (last_status : option Status.t) (status : Status.t)
  : M (Stack * Status.t) :=
  match fuel with
  | O => out_of_fuel
  | S fuel =>
    if terminal status then ret (stk, status)
    else if reached till_reason status then ret (stk, status)
    else
      last_status ←
        (if changed last_status status
         then _log_stack stk status;; ret (Some status)
         else ret last_status);
      emit (EvLog DEBUG "waiting for stack to complete...");;
      r ← call_run_shared held action stk status;
      _wait_for_stack_loop_shared fuel held action r.1 till_reason
        last_status r.2
  end.

(** [Hook._wait_for_stack] on shared objects. [held] tells whether a
    stack that is passed is the object in [self.stack]; without a stack
    argument it is. *)
Definition _wait_for_stack_shared (fuel : nat) (held : bool)
    (action : SharingAction) (last_status : option Status.t)
    (stk : option Stack) (till_reason : option string) : M Status.t :=
  let status := default SUBMITTED last_status in
  self ← get_self;
  match or_else stk (stack self) with
  | None => raise (ValueError "stack required")
  | Some s =>
    let held := match stk with Some _ => held | None => true end in
    r ← _wait_for_stack_loop_shared fuel held action s till_reason
          last_status status;
    _log_stack r.1 r.2;;
    if Status.eqb r.2 FAILED
    then raise (StackFailed (Stack.fqn r.1) (Status.reason r.2))
    else ret r.2
  end.

(** [Hook._run_stack_action] on shared objects. *)
Definition _run_stack_action_shared (fuel : nat) (action : SharingAction)
    (stk : option Stack) (wait : bool) : M Status.t :=
  self ← get_self;
  match or_else stk (stack self) with
  | None => raise (ValueError "stack required")
  | Some s =>
    let held := match stk with Some _ => false | None => true end in
    r ← call_run_shared held action s PENDING;
    _log_stack r.1 r.2;;
    if wait && negb (Status.eqb r.2 SKIPPED)
    then _wait_for_stack_shared fuel held action (Some r.2) (Some r.1) None
    else ret r.2
  end.

(** ** Vocabulary of the statements *)

(** The successive results of [action.run] on [stk]: called with [prev],
    it returns the first status of [ss]; called with that status, the
    second; and so on, taking the provider's world from [x] to [x']. *)
Fixpoint yields (action : Action) (stk : Stack) (prev : Status.t) (x : Ext)
    (ss : list Status.t) (x' : Ext) : Prop :=
  match ss with
  | [] => x' = x
  | s :: ss =>
    ∃ x1, run action stk prev x = (Ok s, x1) ∧ yields action stk s x1 ss x'
  end.

(** What the loop of [_wait_for_stack] emits when it starts at [status]
    and the action then returns [rest]: per turn an optional status line,
    the heartbeat and the call; nothing at the status it stops on. *)
Fixpoint poll_events (name : string) (stk : Stack)
    (last_status : option Status.t) (status : Status.t)
    (rest : list Status.t) : list (Event Blueprint) :=
  match rest with
  | [] => []
  | next :: rest =>
    (if changed last_status status
     then [EvLog (log_level status) (log_message stk status)] else [])
    ++ [EvLog DEBUG "waiting for stack to complete...";
        EvRun name stk status]
    ++ poll_events name stk
         (if changed last_status status then Some status else last_status)
         next rest
  end.

(** What [_run_stack_action] emits with [wait=True] when the action
    returns [first], then [rest], and the loop stops on [f]: the first
    call and its line, the turns of the loop, the closing line. *)
Definition wait_events (name : string) (stk : Stack) (first : Status.t)
    (rest : list Status.t) (f : Status.t) : list (Event Blueprint) :=
  EvRun name stk PENDING
  :: EvLog (log_level first) (log_message stk first)
  :: poll_events name stk (Some first) first rest
  ++ [EvLog (log_level f) (log_message stk f)].

(** The two public methods that run an action. *)
Inductive Method : Type := DeployStack | DestroyStack.

Definition method_action (m : Method) (self : Hook) : Action :=
  match m with
  | DeployStack => _deploy_action self
  | DestroyStack => _destroy_action self
  end.

Definition call_method (m : Method) (fuel : nat) (stk : option Stack)
    (wait : bool) : M Status.t :=
  match m with
  | DeployStack => deploy_stack fuel stk wait
  | DestroyStack => destroy_stack fuel stk wait
  end.


(** A status of the kind of [base] with the given reason, as in
    [SubmittedStatus(reason)]. *)
Definition with_reason (base : Status.t) (r : option string) : Status.t :=
  Status.mk (Status.name base) (Status.code base) r.

(** The calls of [action.run] in a trace, in order. *)
Definition runs (evs : list (Event Blueprint))
  : list (string * Stack * Status.t) :=
  omap (λ e, match e with
             | EvRun n stk s => Some (n, stk, s)
             | _ => None
             end) evs.

(** The lines of a trace above debug level, in order. *)
Definition log_lines (evs : list (Event Blueprint)) : list (Level * string) :=
  omap (λ e, match e with
             | EvLog DEBUG _ => None
             | EvLog lvl msg => Some (lvl, msg)
             | _ => None
             end) evs.

(** No [time.sleep] in a trace. *)
Definition no_sleep (evs : list (Event Blueprint)) : bool :=
  forallb (λ e, match e with EvSleep _ => false | _ => true end) evs.

(** [paced_from slept evs]: every call of [action.run] in [evs] comes
    after a sleep of positive length that follows the call before it;
    [slept] tells whether such a sleep is already behind. *)
Fixpoint paced_from (slept : bool) (evs : list (Event Blueprint)) : bool :=
  match evs with
  | [] => true
  | EvRun _ _ _ :: evs => slept && paced_from false evs
  | EvSleep ms :: evs => paced_from (slept || bool_decide (0 < ms)) evs
  | EvLog _ _ :: evs => paced_from slept evs
  end.

(** Between two successive calls of [action.run] there is a sleep of
    positive length. The first call needs none. *)
Definition paced (evs : list (Event Blueprint)) : bool := paced_from true evs.

(** The shape of what the loop emits: turn after turn, at most one status
    line, then the heartbeat, then the call. *)
Inductive poll_trace : list (Event Blueprint) → Prop :=
  | poll_trace_nil : poll_trace []
  | poll_trace_quiet n stk s evs :
      poll_trace evs →
      poll_trace (EvLog DEBUG "waiting for stack to complete..."
                  :: EvRun n stk s :: evs)
  | poll_trace_logged lvl msg n stk s evs :
      poll_trace evs →
      poll_trace (EvLog lvl msg
                  :: EvLog DEBUG "waiting for stack to complete..."
                  :: EvRun n stk s :: evs).

End HookBase.

Arguments Action : clear implicits.
Arguments SharingAction : clear implicits.
Arguments Hook : clear implicits.
Arguments World : clear implicits.
Arguments M : clear implicits.

(** ** A scripted action, to run the methods on concrete inputs *)

(** The provider's world is the list of results still to come; [run]
    hands out the next one, whatever stack and status it is given. *)
Definition scripted_run (stk : Stack.t ()) (status : Status.t)
    (x : list (Res Status.t)) : Res Status.t * list (Res Status.t) :=
  match x with
  | [] => (Raise (ProviderError "no result left"), [])
  | r :: x => (r, x)
  end.

Definition scripted_hook (ctx : gmap string string)
    (kwargs : gmap string (gmap string string)) (stk : option (Stack.t ()))
  : Hook () () (list (Res Status.t)) :=
  let self :=
    __init__ (λ _ _, scripted_run) (λ _ _, scripted_run)
             (CfnginContext.mk ctx) () kwargs in
  mkHook (args self) (blueprint self) (context self) (provider self) stk
         (stack_name self) (_deploy_action self) (_destroy_action self).

Definition scripted_world (stk : option (Stack.t ()))
    (results : list (Res Status.t)) : World () () (list (Res Status.t)) :=
  mkWorld (scripted_hook ∅ ∅ stk) results [].

Definition vpc : Stack.t () := Stack.mk "vpc" "ns-vpc" ∅ None.

#[local] Existing Instance status_constants.

Definition rollback : Status.t := with_reason SUBMITTED (Some "rollback").
Definition boom : Status.t := with_reason FAILED (Some "boom").
Definition nochange : Status.t := with_reason SKIPPED (Some "nochange").
Definition create_in_progress : Status.t :=
  with_reason SUBMITTED (Some "CREATE_IN_PROGRESS").

(** A hook that holds no stack, and the action still has to return
    SUBMITTED, a rollback and a failure. *)
Definition failing_world : World () () (list (Res Status.t)) :=
  scripted_world None [Ok SUBMITTED; Ok rollback; Ok boom].

(** The same with a COMPLETE status at the end. *)
Definition completing_world : World () () (list (Res Status.t)) :=
  scripted_world None [Ok SUBMITTED; Ok rollback; Ok COMPLETE].

(** The action has nothing to do. *)
Definition skipping_world : World () () (list (Res Status.t)) :=
  scripted_world None [Ok nochange; Ok COMPLETE].

(** The hook holds the stack [vpc]. *)
Definition holding_world : World () () (list (Res Status.t)) :=
  scripted_world (Some vpc) [Ok SUBMITTED; Ok COMPLETE].

(** The second status carries the reason CREATE_IN_PROGRESS. *)
Definition creating_world : World () () (list (Res Status.t)) :=
  scripted_world None [Ok create_in_progress; Ok COMPLETE].

(** The first call of the action fails. *)
Definition throttled_world : World () () (list (Res Status.t)) :=
  scripted_world None [Raise (ProviderError "throttled")].

(** The action fails on its third call. *)
Definition flaky_world : World () () (list (Res Status.t)) :=
  scripted_world None
    [Ok SUBMITTED; Ok rollback; Raise (ProviderError "throttled")].

(** The only status to come is a failure. *)
Definition doomed_world : World () () (list (Res Status.t)) :=
  scripted_world None [Ok boom].

(** An action that answers SUBMITTED to every call. *)
Definition stuck_run (stk : Stack.t ()) (status : Status.t) (x : ())
  : Res Status.t * () :=
  (Ok SUBMITTED, x).

Definition stuck_world : World () () () :=
  mkWorld (__init__ (λ _ _, stuck_run) (λ _ _, stuck_run)
                    (CfnginContext.mk ∅) () ∅) () [].

(** A SUBMITTED status whose reason is the empty string. *)
Definition blank : Status.t := with_reason SUBMITTED (Some EmptyString).

(** The action returns the status with the empty reason, then COMPLETE. *)
Definition blank_world : World () () (list (Res Status.t)) :=
  scripted_world None [Ok blank; Ok COMPLETE].

(** The action completes before the status with the awaited reason. *)
Definition early_world : World () () (list (Res Status.t)) :=
  scripted_world None [Ok COMPLETE; Ok create_in_progress].



(** ** Properties of the loop *)

Section HookProofs.
Context {Provider Blueprint Ext : Type}.
Context `{StatusConstants}.

Implicit Types (w : World Provider Blueprint Ext).
Implicit Types (action : Action Blueprint Ext) (stk : Stack.t Blueprint).
Implicit Types (status f : Status.t) (pre rest : list Status.t).

#[local] Ltac run_m :=
  unfold mbind, mret, M_bind, M_ret, bind, ret, raise, out_of_fuel,
         get_self, emit, call_run, _log_stack in *; simpl in *.

Lemma world_eta w : mkWorld (hook w) (ext w) (events w) = w.
Proof. by destruct w. Qed.

(** With no target reason, only a terminal status ends the loop. *)
Lemma reached_None status : reached None status = false.
Proof. reflexivity. Qed.

(** The loop, on a run of statuses that goes on through [pre] and stops
    at [f]: it returns [f] after one call per status of [pre]. *)
Lemma _wait_for_stack_loop_stops action stk till pre :
  ∀ status rest f last x' w fuel,
    status :: rest = pre ++ [f] →
    Forall (λ s, terminal s = false ∧ reached till s = false) pre →
    terminal f || reached till f = true →
    yields action stk status (ext w) rest x' →
    (length rest < fuel)%nat →
    _wait_for_stack_loop fuel action stk till last status w
    = (Ok f, mkWorld (hook w) x'
               (events w
                ++ poll_events (action_name action) stk last status rest)).
Proof.
  induction pre as [|p pre IH];
    intros status rest f last x' w fuel Heq Hpre Hf Hy Hfuel.
  - simplify_eq/=. destruct fuel as [|fuel]; [lia|]. simpl.
    rewrite app_nil_r, world_eta.
    destruct (terminal f); [done|]. simpl in Hf. by rewrite Hf.
  - simplify_eq/=. apply Forall_cons in Hpre as [[Hp1 Hp2] Hpre].
    destruct pre as [|s1 pre']; simpl in *.
    + destruct Hy as (x1 & Hrun & ->).
      destruct fuel as [|fuel]; [lia|]. simpl. rewrite Hp1, Hp2.
      destruct (changed last p); run_m; rewrite Hrun;
        (erewrite (IH f [] f) by (simpl; eauto with lia; done));
        simpl; by rewrite <- !app_assoc.
    + destruct Hy as (x1 & Hrun & Hy).
      destruct fuel as [|fuel]; [lia|]. simpl. rewrite Hp1, Hp2.
      destruct (changed last p); run_m; rewrite Hrun;
        (erewrite (IH s1 (pre' ++ [f]) f) by (simpl; eauto with lia; done));
        simpl; by rewrite <- !app_assoc.
Qed.

(** Whatever the action does and however the loop ends, what it emits has
    the shape of [poll_trace], and the hook is left as it was. *)
Lemma _wait_for_stack_loop_trace fuel :
  ∀ action stk till last status w,
    ∃ evs,
      events (_wait_for_stack_loop fuel action stk till last status w).2
      = events w ++ evs
      ∧ hook (_wait_for_stack_loop fuel action stk till last status w).2
        = hook w
      ∧ poll_trace evs.
Proof.
  induction fuel as [|fuel IH]; intros action stk till last status w; simpl.
  { exists []. rewrite app_nil_r. repeat split; constructor. }
  destruct (terminal status).
  { exists []. rewrite app_nil_r. repeat split; constructor. }
  destruct (reached till status).
  { exists []. rewrite app_nil_r. repeat split; constructor. }
  destruct (changed last status); run_m;
    destruct (run action stk status (ext w)) as [[s1| e |] x1] eqn:Hrun; simpl.
  - edestruct (IH action stk till (Some status) s1) as (evs & -> & -> & Hevs).
    eexists (_ :: _ :: _ :: evs). simpl.
    split; [by rewrite <- !app_assoc|]. split; [done|]. by constructor.
  - eexists [_; _; _]. simpl.
    split; [by rewrite <- !app_assoc|]. split; [done|]. repeat constructor.
  - eexists [_; _; _]. simpl.
    split; [by rewrite <- !app_assoc|]. split; [done|]. repeat constructor.
  - edestruct (IH action stk till last s1) as (evs & -> & -> & Hevs).
    eexists (_ :: _ :: evs). simpl.
    split; [by rewrite <- !app_assoc|]. split; [done|]. by constructor.
  - eexists [_; _]. simpl.
    split; [by rewrite <- !app_assoc|]. split; [done|]. repeat constructor.
  - eexists [_; _]. simpl.
    split; [by rewrite <- !app_assoc|]. split; [done|]. repeat constructor.
Qed.

Lemma poll_trace_no_sleep (evs : list (Event Blueprint)) :
  poll_trace evs → no_sleep evs = true.
Proof. induction 1; simpl; auto. Qed.

(** [_run_stack_action] with [wait=True] on a run of statuses that goes
    on through [pre] and ends at the terminal [f]. *)
Lemma _run_stack_action_waits action given stk pre f x' w fuel :
  or_else given (stack (hook w)) = Some stk →
  yields action stk PENDING (ext w) (pre ++ [f]) x' →
  Forall (λ s, terminal s = false) pre →
  Status.eqb (hd f pre) SKIPPED = false →
  terminal f = true →
  (length pre < fuel)%nat →
  _run_stack_action fuel action given true w
  = (if Status.eqb f FAILED
     then Raise (StackFailed (Stack.fqn stk) (Status.reason f))
     else Ok f,
     mkWorld (hook w) x'
       (events w
        ++ wait_events (action_name action) stk (hd f pre)
             (tail (pre ++ [f])) f)).
Proof.
  intros Hstk Hy Hpre Hskip Hf Hfuel.
  assert (∃ rest, pre ++ [f] = hd f pre :: rest ∧ length rest = length pre)
    as (rest & Hseq & Hlen).
  { destruct pre as [|p pre]; simpl; eexists; split; try done.
    rewrite length_app. simpl. lia. }
  rewrite Hseq in Hy |- *. simpl in Hy. destruct Hy as (x1 & Hrun & Hy).
  unfold _run_stack_action, _wait_for_stack. run_m.
  rewrite Hstk. simpl. rewrite Hrun, Hskip. simpl.
  erewrite (_wait_for_stack_loop_stops action stk None pre); simpl; eauto.
  - unfold wait_events. simpl.
    destruct (Status.eqb f FAILED); simpl; f_equal; f_equal;
      by rewrite <- !app_assoc.
  - eapply Forall_impl; [done|]. simpl. auto.
  - by rewrite Hf.
  - lia.
Qed.

(** [_run_stack_action] when the loop is not entered: one call, one
    line, and the status goes back to the caller. *)
Lemma _run_stack_action_once action given stk status x1 wait w fuel :
  or_else given (stack (hook w)) = Some stk →
  run action stk PENDING (ext w) = (Ok status, x1) →
  wait && negb (Status.eqb status SKIPPED) = false →
  _run_stack_action fuel action given wait w
  = (Ok status,
     mkWorld (hook w) x1
       (events w ++ [EvRun (action_name action) stk PENDING;
                     EvLog (log_level status) (log_message stk status)])).
Proof.
  intros Hstk Hrun Hwait. unfold _run_stack_action. run_m.
  rewrite Hstk. simpl. rewrite Hrun, Hwait. simpl.
  by rewrite <- !app_assoc.
Qed.

Lemma call_method_unfold m fuel given wait w :
  call_method m fuel given wait w
  = _run_stack_action fuel (method_action m (hook w)) given wait w.
Proof. by destruct m. Qed.

Lemma runs_app (evs1 evs2 : list (Event Blueprint)) :
  runs (evs1 ++ evs2) = runs evs1 ++ runs evs2.
Proof. apply omap_app. Qed.

(** What [_wait_for_stack] emits, however it ends: the turns of the loop,
    then at most the closing line; and the hook is left as it was. *)
Lemma _wait_for_stack_trace fuel action last given till w :
  ∃ polls closing,
    events (_wait_for_stack fuel action last given till w).2
    = events w ++ polls ++ closing
    ∧ hook (_wait_for_stack fuel action last given till w).2 = hook w
    ∧ poll_trace polls
    ∧ (closing = [] ∨ ∃ lvl msg, closing = [EvLog lvl msg]).
Proof.
  unfold _wait_for_stack. run_m.
  destruct (or_else given (stack (hook w))) as [stk|]; simpl.
  { destruct (_wait_for_stack_loop_trace fuel action stk till last
                (default SUBMITTED last) w) as (evs & Hev & Hh & Ht).
    destruct (_wait_for_stack_loop fuel action stk till last
                (default SUBMITTED last) w) as [[s| e |] w1]; simpl in *.
    - exists evs, [EvLog (log_level s) (log_message stk s)].
      destruct (Status.eqb s FAILED); simpl; rewrite Hev, <- app_assoc;
        eauto 10.
    - exists evs, []. rewrite app_nil_r. eauto 10.
    - exists evs, []. rewrite app_nil_r. eauto 10. }
  exists [], []. simpl. rewrite app_nil_r. repeat split; try constructor; auto.
Qed.

Lemma _run_stack_action_hook fuel action given wait w :
  hook (_run_stack_action fuel action given wait w).2 = hook w.
Proof.
  unfold _run_stack_action. run_m.
  destruct (or_else given (stack (hook w))) as [stk|]; simpl; [|done].
  destruct (run action stk PENDING (ext w)) as [[s| e |] x1]; simpl; try done.
  destruct (wait && negb (Status.eqb s SKIPPED)); simpl; [|done].
  destruct (_wait_for_stack_trace fuel action (Some s) (Some stk) None
    (mkWorld (hook w) x1
       ((events w ++ [EvRun (action_name action) stk PENDING])
        ++ [EvLog (log_level s) (log_message stk s)])))
    as (? & ? & _ & Hh & _).
  unfold _wait_for_stack in Hh. run_m. exact Hh.
Qed.

Lemma string_app_ne (s x : string) : x ≠ EmptyString → s ≠ s +:+ x.
Proof.
  intros Hx Heq. apply Hx. symmetry.
  apply (inj (String.app s)). rewrite <- Heq.
  clear. induction s as [|a s IH]; [reflexivity|].
  change (String a s +:+ EmptyString) with (String a (s +:+ EmptyString)).
  by rewrite IH.
Qed.

Lemma runs_poll_events name stk rest :
  ∀ last status,
    length (runs (poll_events name stk last status rest)) = length rest.
Proof.
  induction rest as [|next rest IH]; intros last status; simpl; [done|].
  rewrite runs_app, length_app.
  destruct (changed last status); simpl; by rewrite IH.
Qed.

Lemma terminal_FAILED status :
  Status.eqb status FAILED = true → terminal status = true.
Proof. unfold terminal. intros ->. apply orb_true_r. Qed.

Lemma terminal_COMPLETE status :
  Status.eqb status COMPLETE = true → terminal status = true.
Proof. unfold terminal. by intros ->. Qed.

Lemma distinct_codes_inv :
  distinct_codes →
  Status.code SUBMITTED ≠ Status.code COMPLETE
  ∧ Status.code SUBMITTED ≠ Status.code FAILED
  ∧ Status.code COMPLETE ≠ Status.code FAILED
  ∧ Status.code COMPLETE ≠ Status.code SKIPPED
  ∧ Status.code SKIPPED ≠ Status.code FAILED
  ∧ Status.code SUBMITTED ≠ Status.code SKIPPED.
Proof.
  unfold distinct_codes. simpl. rewrite !NoDup_cons, !not_elem_of_cons.
  intuition congruence.
Qed.

(** ** Properties of the methods of [Hook] *)

(** What [tags] gives on a new hook: the union of the context's tags and
    the hook's [tags] argument in which, on a key that both define, the
    value of the CONTEXT stands. The property merges with the hook's values
    on top, but [__init__] has by then written the context's tags over the
    argument's. *)
Theorem tags_context_takes_precedence
    (_launch_stack _destroy_stack :
       CfnginContext.t → Provider → Stack.t Blueprint → Status.t → Ext
       → Res Status.t * Ext)
    (ctx : CfnginContext.t) (prov : Provider)
    (kwargs : gmap string (gmap string string)) (k : string) :
  let self := __init__ _launch_stack _destroy_stack ctx prov kwargs in
  tags self = CfnginContext.tags ctx ∪ default ∅ (kwargs !! "tags")
  ∧ tags self !! k
    = match CfnginContext.tags ctx !! k with
      | Some v => Some v
      | None => default ∅ (kwargs !! "tags") !! k
      end.
Proof.
  intros self.
  assert (tags self = CfnginContext.tags ctx ∪ default ∅ (kwargs !! "tags"))
    as Heq.
  { unfold self, tags, __init__, dict_update, HookArgsBaseModel.parse_obj.
    simpl. destruct (kwargs !! "tags") as [t|] eqn:Hk; simpl.
    - rewrite Hk. simpl. apply map_eq. intros i.
      rewrite !lookup_union. by destruct (CfnginContext.tags ctx !! i), (t !! i).
    - rewrite lookup_insert_eq. simpl. apply map_eq. intros i.
      rewrite !lookup_union, lookup_empty.
      by destruct (CfnginContext.tags ctx !! i). }
  split; [done|]. rewrite Heq, lookup_union.
  by destruct (CfnginContext.tags ctx !! k), (default ∅ (kwargs !! "tags") !! k).
Qed.

(** C2. When the results of the deploy action form a run of statuses that
    ends in a FAILED status [f] (none before it terminal, the first not
    SKIPPED), [deploy_stack(stack, wait=True)] raises [StackFailed] with the
    stack's fully-qualified name and the reason of [f]; it returns no
    status. Any fuel above the number of statuses before [f] shows it. *)
Theorem deploy_stack_raises_StackFailed stk pre f x' w fuel :
  yields (_deploy_action (hook w)) stk PENDING (ext w) (pre ++ [f]) x' →
  Forall (λ s, terminal s = false) pre →
  Status.eqb (hd f pre) SKIPPED = false →
  Status.eqb f FAILED = true →
  (length pre < fuel)%nat →
  deploy_stack fuel (Some stk) true w
  = (Raise (StackFailed (Stack.fqn stk) (Status.reason f)),
     mkWorld (hook w) x'
       (events w
        ++ wait_events (action_name (_deploy_action (hook w))) stk
             (hd f pre) (tail (pre ++ [f])) f)).
Proof.
  intros Hy Hpre Hskip Hf Hfuel.
  change (deploy_stack fuel (Some stk) true w)
    with (call_method DeployStack fuel (Some stk) true w).
  rewrite call_method_unfold. simpl.
  erewrite _run_stack_action_waits; eauto using terminal_FAILED.
  by rewrite Hf.
Qed.

(** C3. When the results of the deploy action form a run of statuses that
    ends in a COMPLETE status [f] (none before it terminal, the first not
    SKIPPED), [deploy_stack(stack, wait=True)] returns [f] and raises
    nothing. Any fuel above the number of statuses before [f] shows it. *)
Theorem deploy_stack_returns_COMPLETE stk pre f x' w fuel :
  distinct_codes →
  yields (_deploy_action (hook w)) stk PENDING (ext w) (pre ++ [f]) x' →
  Forall (λ s, terminal s = false) pre →
  Status.eqb (hd f pre) SKIPPED = false →
  Status.eqb f COMPLETE = true →
  (length pre < fuel)%nat →
  deploy_stack fuel (Some stk) true w
  = (Ok f,
     mkWorld (hook w) x'
       (events w
        ++ wait_events (action_name (_deploy_action (hook w))) stk
             (hd f pre) (tail (pre ++ [f])) f)).
Proof.
  intros Hd Hy Hpre Hskip Hf Hfuel.
  change (deploy_stack fuel (Some stk) true w)
    with (call_method DeployStack fuel (Some stk) true w).
  rewrite call_method_unfold. simpl.
  erewrite _run_stack_action_waits; eauto using terminal_COMPLETE.
  apply distinct_codes_inv in Hd as (_ & _ & Hcf & _).
  unfold Status.eqb in *. apply bool_decide_eq_true in Hf.
  rewrite bool_decide_eq_false_2; [done|congruence].
Qed.

(** C4. If the first call [action.run(stack, PENDING)] returns a status
    that equals SKIPPED, [deploy_stack] and [destroy_stack] with
    [wait=True] return it at once: the trace gains that one call and its
    line, so the action is not called again, whatever the fuel. *)
Theorem skipped_returns_without_polling m given stk status x1 w fuel :
  or_else given (stack (hook w)) = Some stk →
  run (method_action m (hook w)) stk PENDING (ext w) = (Ok status, x1) →
  Status.eqb status SKIPPED = true →
  let name := action_name (method_action m (hook w)) in
  let out := call_method m fuel given true w in
  out = (Ok status,
         mkWorld (hook w) x1
           (events w ++ [EvRun name stk PENDING;
                         EvLog (log_level status) (log_message stk status)]))
  ∧ runs (events out.2) = runs (events w) ++ [(name, stk, PENDING)].
Proof.
  intros Hstk Hrun Hskip name out. unfold out.
  rewrite call_method_unfold.
  erewrite _run_stack_action_once; eauto; [|by rewrite Hskip].
  split; [done|]. simpl. by rewrite runs_app.
Qed.

(** C5. With [wait=False], whatever status the action returns,
    [deploy_stack] and [destroy_stack] call [action.run] once, with
    PENDING, and return that status. *)
Theorem no_wait_runs_once m given stk status x1 w fuel :
  or_else given (stack (hook w)) = Some stk →
  run (method_action m (hook w)) stk PENDING (ext w) = (Ok status, x1) →
  let name := action_name (method_action m (hook w)) in
  let out := call_method m fuel given false w in
  out = (Ok status,
         mkWorld (hook w) x1
           (events w ++ [EvRun name stk PENDING;
                         EvLog (log_level status) (log_message stk status)]))
  ∧ runs (events out.2) = runs (events w) ++ [(name, stk, PENDING)].
Proof.
  intros Hstk Hrun name out. unfold out.
  rewrite call_method_unfold.
  erewrite _run_stack_action_once; eauto.
  split; [done|]. simpl. by rewrite runs_app.
Qed.

(** C6. Called without a stack on a hook that holds none, [deploy_stack]
    and [destroy_stack] raise the error "stack required" (a [ValueError]
    in the code) and nothing has happened: no call of the action, no line,
    the provider's world as it was. *)
Theorem no_stack_raises m wait w fuel :
  stack (hook w) = None →
  call_method m fuel None wait w = (Raise (ValueError "stack required"), w).
Proof.
  intros Hstk. rewrite call_method_unfold.
  unfold _run_stack_action. run_m. by rewrite Hstk.
Qed.

(** C7, as the code has it. [_wait_for_stack] with a target reason [t]
    that is not the empty string: the loop stops at the first status that
    is terminal or carries [t]. When the statuses the loop looks at go on
    through [pre], none of them terminal nor carrying [t], and come to
    such a status [f], the action has been called once per status of
    [pre] and is not called again. If [f] is not terminal it is returned
    as it is; a COMPLETE or FAILED [f] ends the loop all the same, whatever
    its reason and whatever would follow, and a FAILED one raises. *)
Theorem till_reason_stops_the_loop
    action given stk last t pre f rest x' w fuel :
  or_else given (stack (hook w)) = Some stk →
  t ≠ EmptyString →
  default SUBMITTED last :: rest = pre ++ [f] →
  yields action stk (default SUBMITTED last) (ext w) rest x' →
  Forall (λ s, terminal s = false ∧ Status.reason s ≠ Some t) pre →
  terminal f = true ∨ Status.reason f = Some t →
  (length rest < fuel)%nat →
  let out := _wait_for_stack fuel action last given (Some t) w in
  out = (if Status.eqb f FAILED
         then Raise (StackFailed (Stack.fqn stk) (Status.reason f))
         else Ok f,
         mkWorld (hook w) x'
           (events w
            ++ poll_events (action_name action) stk last
                 (default SUBMITTED last) rest
            ++ [EvLog (log_level f) (log_message stk f)]))
  ∧ length (runs (events out.2))
    = (length (runs (events w)) + length pre)%nat
  ∧ (terminal f = false → out.1 = Ok f).
Proof.
  intros Hstk Ht Hseq Hy Hpre Hf Hfuel out.
  assert (out = (if Status.eqb f FAILED
         then Raise (StackFailed (Stack.fqn stk) (Status.reason f))
         else Ok f,
         mkWorld (hook w) x'
           (events w
            ++ poll_events (action_name action) stk last
                 (default SUBMITTED last) rest
            ++ [EvLog (log_level f) (log_message stk f)]))) as Hout.
  { unfold out, _wait_for_stack. run_m. rewrite Hstk. simpl.
    erewrite (_wait_for_stack_loop_stops action stk (Some t) pre); eauto.
    - simpl. destruct (Status.eqb f FAILED); simpl;
        by rewrite <- !app_assoc.
    - eapply Forall_impl; [done|]. simpl. intros s [? Hs]. split; [done|].
      unfold reached. rewrite (bool_decide_eq_false_2 _ Hs).
      apply andb_false_r.
    - destruct Hf as [-> | Hr]; [done|]. apply orb_true_iff. right.
      unfold reached. rewrite Hr. simpl.
      by rewrite !bool_decide_eq_true_2. }
  split; [done|]. rewrite Hout. split.
  - simpl. rewrite !runs_app, !length_app, runs_poll_events. simpl.
    apply (f_equal length) in Hseq. rewrite length_app in Hseq.
    simpl in Hseq. lia.
  - intros Hnt. simpl. unfold terminal in Hnt.
    by apply orb_false_iff in Hnt as [_ ->].
Qed.

(** C8. A status line is one event of [_log_stack]: its text is
    "<stack name>:<status name>", followed by " (<reason>)" when the status
    has a reason (a string that is not empty); its level is notice for a
    SUBMITTED status, success for COMPLETE, error for FAILED and info for
    any other. And when the action returns SUBMITTED without reason, then
    SUBMITTED with reason "rollback", then COMPLETE, and [wait=True], the
    lines above debug level are three, all different: one per change of
    reason and the closing one. *)
Theorem status_lines action stk x' w fuel :
  distinct_codes →
  yields action stk PENDING (ext w)
    [with_reason SUBMITTED None;
     with_reason SUBMITTED (Some "rollback");
     with_reason COMPLETE None] x' →
  (2 < fuel)%nat →
  (∀ (k : Stack.t Blueprint) (s : Status.t) w1,
     _log_stack k s w1
     = (Ok (),
        mkWorld (hook w1) (ext w1)
          (events w1 ++ [EvLog (log_level s) (log_message k s)])))
  ∧ (∀ (k : Stack.t Blueprint) (s : Status.t),
       (Status.reason s = None ∨ Status.reason s = Some EmptyString →
        log_message k s = Stack.name k +:+ ":" +:+ Status.name s)
       ∧ (∀ r, Status.reason s = Some r → r ≠ EmptyString →
          log_message k s
          = (Stack.name k +:+ ":" +:+ Status.name s)
            +:+ " (" +:+ r +:+ ")"))
  ∧ (∀ s : Status.t,
       (Status.code s = Status.code SUBMITTED → log_level s = NOTICE)
       ∧ (Status.code s = Status.code COMPLETE → log_level s = SUCCESS)
       ∧ (Status.code s = Status.code FAILED → log_level s = ERROR)
       ∧ (Status.code s ≠ Status.code SUBMITTED →
          Status.code s ≠ Status.code COMPLETE →
          Status.code s ≠ Status.code FAILED → log_level s = INFO))
  ∧ ∃ evs,
      _run_stack_action fuel action (Some stk) true w
      = (Ok (with_reason COMPLETE None),
         mkWorld (hook w) x' (events w ++ evs))
      ∧ log_lines evs
        = [(NOTICE, Stack.name stk +:+ ":" +:+ Status.name SUBMITTED);
           (NOTICE, (Stack.name stk +:+ ":" +:+ Status.name SUBMITTED)
                    +:+ " (" +:+ "rollback" +:+ ")");
           (SUCCESS, Stack.name stk +:+ ":" +:+ Status.name COMPLETE)]
      ∧ NoDup (log_lines evs).
Proof.
  intros Hd Hy Hfuel.
  destruct (distinct_codes_inv Hd) as (Hsc & Hsf & Hcf & Hck & Hkf & Hsk).
  split; [done|]. split.
  { intros k s. unfold log_message. split.
    - by intros [-> | ->].
    - intros r -> Hr. simpl. by rewrite bool_decide_eq_true_2. }
  split.
  { intros s. unfold log_level. repeat split.
    - intros ->. by rewrite bool_decide_eq_true_2.
    - intros ->. rewrite bool_decide_eq_false_2 by congruence.
      by rewrite bool_decide_eq_true_2.
    - intros ->. rewrite !bool_decide_eq_false_2 by congruence.
      by rewrite bool_decide_eq_true_2.
    - intros ???. by rewrite !bool_decide_eq_false_2. }
  eexists. split.
  { rewrite (_run_stack_action_waits action (Some stk) stk
               [with_reason SUBMITTED None;
                with_reason SUBMITTED (Some "rollback")]
               (with_reason COMPLETE None) x' w fuel eq_refl Hy).
    - unfold Status.eqb. simpl. by rewrite bool_decide_eq_false_2.
    - unfold terminal, Status.eqb. simpl.
      repeat apply Forall_cons_2; try apply Forall_nil_2;
        by rewrite !bool_decide_eq_false_2.
    - unfold Status.eqb. simpl. by rewrite bool_decide_eq_false_2.
    - unfold terminal, Status.eqb. simpl. by rewrite bool_decide_eq_true_2.
    - simpl. lia. }
  assert (∀ r, log_level (with_reason SUBMITTED r) = NOTICE) as Hl1.
  { intros r. unfold log_level. simpl. by rewrite bool_decide_eq_true_2. }
  assert (log_level (with_reason COMPLETE None) = SUCCESS) as Hl3.
  { unfold log_level. simpl. rewrite bool_decide_eq_false_2 by congruence.
    by rewrite bool_decide_eq_true_2. }
  unfold wait_events, log_lines, changed. simpl.
  rewrite !Hl1, Hl3. simpl. unfold log_message. simpl.
  split; [done|].
  repeat (apply NoDup_cons; split); try apply NoDup_nil;
    rewrite ?not_elem_of_cons, ?elem_of_nil; repeat split; try tauto;
    try discriminate.
  intros [= Heq]. by eapply string_app_ne in Heq.
Qed.

(** C9, as the code has it. The loop of [_wait_for_stack] does not sleep:
    whatever the action returns and however the call ends, what it emits
    is, turn after turn, at most one status line, the debug heartbeat and
    the call of [action.run], then at most the closing line; no
    [time.sleep] is among them. *)
Theorem _wait_for_stack_does_not_sleep fuel action last given till w :
  ∃ polls closing,
    events (_wait_for_stack fuel action last given till w).2
    = events w ++ polls ++ closing
    ∧ poll_trace polls
    ∧ (closing = [] ∨ ∃ lvl msg, closing = [EvLog lvl msg])
    ∧ no_sleep (polls ++ closing) = true.
Proof.
  destruct (_wait_for_stack_trace fuel action last given till w)
    as (polls & closing & Hev & _ & Ht & Hc).
  exists polls, closing. repeat split; try done.
  unfold no_sleep. rewrite forallb_app.
  fold (no_sleep polls). rewrite (poll_trace_no_sleep _ Ht).
  by destruct Hc as [-> | (lvl & msg & ->)].
Qed.

(** A call that leaves the shared objects as they are leaves the hook as
    it is. *)
Lemma write_back_same (held : bool) stk (self : Hook Provider Blueprint Ext) :
  (held = true → stack self = Some stk) →
  write_back held (mkShared stk (context self) (provider self)) self = self.
Proof.
  destruct self, held; simpl; intros Hs; [|done]. by rewrite Hs.
Qed.




(** On an action that writes nothing, the methods on shared objects are
    the methods as they were embedded first. *)
Lemma _wait_for_stack_loop_shared_plain action held till fuel :
  ∀ stk last status w,
    (held = true → stack (hook w) = Some stk) →
    _wait_for_stack_loop_shared fuel held (writes_nothing action) stk till
      last status w
    = (match (_wait_for_stack_loop fuel action stk till last status w).1 with
       | Ok s => Ok (stk, s)
       | Raise e => Raise e
       | OutOfFuel => OutOfFuel
       end,
       (_wait_for_stack_loop fuel action stk till last status w).2).
Proof.
  induction fuel as [|fuel IH]; intros stk last status w Hheld;
    cbn [_wait_for_stack_loop_shared _wait_for_stack_loop]; [done|].
  destruct (terminal status); [done|].
  destruct (reached till status); [done|].
  destruct (changed last status); run_m; unfold call_run_shared; simpl;
    destruct (run action stk status (ext w)) as [[s1| e |] x1]; simpl;
    rewrite write_back_same by done; try done; by apply IH.
Qed.

Lemma _run_stack_action_shared_plain action given wait fuel w :
  _run_stack_action_shared fuel (writes_nothing action) given wait w
  = _run_stack_action fuel action given wait w.
Proof.
  unfold _run_stack_action_shared, _run_stack_action,
    _wait_for_stack_shared, _wait_for_stack.
  run_m. destruct (or_else given (stack (hook w))) as [stk|] eqn:Hstk;
    simpl; [|done].
  assert (match given with Some _ => false | None => true end = true →
          stack (hook w) = Some stk) as Hheld.
  { destruct given; simpl in *; [done|]. by intros _. }
  unfold call_run_shared. simpl.
  destruct (run action stk PENDING (ext w)) as [[s1| e |] x1]; simpl;
    rewrite write_back_same by done; try done.
  destruct (wait && negb (Status.eqb s1 SKIPPED)); simpl; [|done].
  rewrite _wait_for_stack_loop_shared_plain by done.
  destruct (_wait_for_stack_loop fuel action stk None (Some s1) s1 _)
    as [[s| e |] w1]; simpl; try done.
Qed.


(** ** Further properties of the methods *)

(** A status the loop hands back is one it stops on. *)
Lemma _wait_for_stack_loop_returns fuel :
  ∀ action stk till last status w s w',
    _wait_for_stack_loop fuel action stk till last status w = (Ok s, w') →
    terminal s || reached till s = true.
Proof.
  induction fuel as [|fuel IH]; intros action stk till last status w s w';
    simpl; [done|].
  destruct (terminal status) eqn:Ht.
  { intros [= <- <-]. by rewrite Ht. }
  destruct (reached till status) eqn:Hr.
  { intros [= <- <-]. by rewrite Hr, orb_true_r. }
  destruct (changed last status); run_m;
    destruct (run action stk status (ext w)) as [[s1| e |] x1]; simpl;
    try done; apply IH.
Qed.

(** What a return of [_wait_for_stack] tells. *)
Lemma _wait_for_stack_returns fuel action last given till w s w' :
  _wait_for_stack fuel action last given till w = (Ok s, w') →
  ∃ stk evs,
    or_else given (stack (hook w)) = Some stk
    ∧ events w' = events w ++ evs ++ [EvLog (log_level s) (log_message stk s)]
    ∧ Status.eqb s FAILED = false
    ∧ terminal s || reached till s = true.
Proof.
  unfold _wait_for_stack. run_m.
  destruct (or_else given (stack (hook w))) as [stk|]; simpl; [|done].
  destruct (_wait_for_stack_loop_trace fuel action stk till last
              (default SUBMITTED last) w) as (evs & Hev & _ & _).
  destruct (_wait_for_stack_loop fuel action stk till last
              (default SUBMITTED last) w) as [[s1| e |] w1] eqn:Hloop;
    simpl in *; try done.
  destruct (Status.eqb s1 FAILED) eqn:Hf; simpl; [done|].
  intros [= <- <-]. exists stk, evs. simpl. rewrite Hev, <- app_assoc.
  eauto using _wait_for_stack_loop_returns.
Qed.

(** What a return of [_run_stack_action] tells. *)
Lemma _run_stack_action_returns fuel action given wait w s w' :
  _run_stack_action fuel action given wait w = (Ok s, w') →
  ∃ stk evs,
    or_else given (stack (hook w)) = Some stk
    ∧ events w' = events w ++ evs ++ [EvLog (log_level s) (log_message stk s)]
    ∧ (wait = true →
       Status.eqb s SKIPPED = true
       ∨ (Status.eqb s COMPLETE = true ∧ Status.eqb s FAILED = false)).
Proof.
  unfold _run_stack_action. run_m.
  destruct (or_else given (stack (hook w))) as [stk|]; simpl; [|done].
  destruct (run action stk PENDING (ext w)) as [[s1| e |] x1]; simpl;
    try done.
  destruct (wait && negb (Status.eqb s1 SKIPPED)) eqn:Hw; simpl.
  - intros Hret.
    apply (_wait_for_stack_returns fuel action (Some s1) (Some stk) None)
      in Hret as (stk' & evs & [= <-] & Hev & Hf & Hs).
    simpl in Hev.
    exists stk, (EvRun (action_name action) stk PENDING
                 :: EvLog (log_level s1) (log_message stk s1) :: evs).
    split; [done|]. split; [by rewrite Hev, <- !app_assoc|].
    intros _. right. rewrite reached_None, orb_false_r in Hs.
    unfold terminal in Hs. rewrite Hf, orb_false_r in Hs. done.
  - intros [= <- <-].
    exists stk, [EvRun (action_name action) stk PENDING].
    split; [done|]. simpl. split; [by rewrite <- !app_assoc|].
    intros ->. simpl in Hw. apply negb_false_iff in Hw. by left.
Qed.

(** X1. Whatever the action does, a status that [deploy_stack] or
    [destroy_stack] returns is the last thing the call has logged: the
    trace of the call ends with the line of that status, on the stack the
    call worked on. *)
Theorem returned_status_is_logged_last m fuel given wait w s w' :
  call_method m fuel given wait w = (Ok s, w') →
  ∃ stk evs,
    or_else given (stack (hook w)) = Some stk
    ∧ events w' = events w ++ evs ++ [EvLog (log_level s) (log_message stk s)].
Proof.
  rewrite call_method_unfold. intros Hret.
  apply _run_stack_action_returns in Hret as (stk & evs & ? & ? & _).
  eauto.
Qed.

(** X2. With [wait=True], [deploy_stack] and [destroy_stack] never hand
    back a status that is still in progress: a returned status equals
    SKIPPED, or it equals COMPLETE and is not FAILED. *)
Theorem waited_status_is_final m fuel given w s w' :
  call_method m fuel given true w = (Ok s, w') →
  Status.eqb s SKIPPED = true
  ∨ (Status.eqb s COMPLETE = true ∧ Status.eqb s FAILED = false).
Proof.
  rewrite call_method_unfold. intros Hret.
  apply _run_stack_action_returns in Hret as (_ & _ & _ & _ & Hs). auto.
Qed.

(** X3. A status that [_wait_for_stack] returns is never FAILED, and it
    either equals COMPLETE or carries the target reason. *)
Theorem _wait_for_stack_returns_only_when_done
    fuel action last given till w s w' :
  _wait_for_stack fuel action last given till w = (Ok s, w') →
  Status.eqb s FAILED = false
  ∧ (Status.eqb s COMPLETE = true ∨ reached till s = true).
Proof.
  intros Hret.
  apply _wait_for_stack_returns in Hret as (_ & _ & _ & _ & Hf & Hs).
  split; [done|]. unfold terminal in Hs. rewrite Hf, orb_false_r in Hs.
  by apply orb_true_iff.
Qed.

(** X4. An exception of the first [action.run] leaves [deploy_stack] and
    [destroy_stack] as it is, with or without [wait]: nothing is logged and
    the action is not called again. *)
Theorem action_error_propagates m given stk e x1 wait w fuel :
  or_else given (stack (hook w)) = Some stk →
  run (method_action m (hook w)) stk PENDING (ext w) = (Raise e, x1) →
  call_method m fuel given wait w
  = (Raise e,
     mkWorld (hook w) x1
       (events w
        ++ [EvRun (action_name (method_action m (hook w))) stk PENDING])).
Proof.
  intros Hstk Hrun. rewrite call_method_unfold.
  unfold _run_stack_action. run_m. by rewrite Hstk; simpl; rewrite Hrun.
Qed.

(** The loop, on statuses that all go on, when the call that follows the
    last of them raises. *)
Lemma _wait_for_stack_loop_raises action stk till e pre :
  ∀ status rest l last x1 x2 w fuel,
    status :: rest = pre ++ [l] →
    Forall (λ s, terminal s = false ∧ reached till s = false) (pre ++ [l]) →
    yields action stk status (ext w) rest x1 →
    run action stk l x1 = (Raise e, x2) →
    (length rest < fuel)%nat →
    _wait_for_stack_loop fuel action stk till last status w
    = (Raise e,
       mkWorld (hook w) x2
         (events w
          ++ poll_events (action_name action) stk last status (rest ++ [l]))).
Proof.
  induction pre as [|p pre IH];
    intros status rest l last x1 x2 w fuel Heq Hall Hy Hrun Hfuel.
  - simplify_eq/=. apply Forall_cons in Hall as [[Hl1 Hl2] _].
    destruct fuel as [|fuel]; [lia|]. simpl. rewrite Hl1, Hl2.
    destruct (changed last l); run_m; rewrite Hrun; simpl;
      by rewrite <- !app_assoc.
  - simplify_eq/=. apply Forall_cons in Hall as [[Hp1 Hp2] Hall].
    assert (∃ s1 rest', pre ++ [l] = s1 :: rest') as (s1 & rest' & Hrest)
      by (destruct pre; simpl; eauto).
    rewrite Hrest in Hy, Hfuel |- *. symmetry in Hrest.
    simpl in Hy, Hfuel. destruct Hy as (x3 & Hrun1 & Hy).
    destruct fuel as [|fuel]; [lia|]. simpl. rewrite Hp1, Hp2.
    assert (length rest' < fuel)%nat as Hfuel' by lia.
    destruct (changed last p); run_m; rewrite Hrun1;
      (erewrite (IH s1 rest' l) by (simpl; eauto));
      simpl; by rewrite <- !app_assoc.
Qed.

(** The last thing the loop emits for a status that goes on is the call
    made with it. *)
Lemma poll_events_last name stk pre :
  ∀ status rest l last,
    status :: rest = pre ++ [l] →
    list.last (poll_events name stk last status (rest ++ [l]))
    = Some (EvRun name stk l).
Proof.
  induction pre as [|p pre IH]; intros status rest l last Heq.
  - simplify_eq/=. by destruct (changed last l).
  - simplify_eq/=.
    assert (∃ s1 rest', pre ++ [l] = s1 :: rest') as (s1 & rest' & Hrest)
      by (destruct pre; simpl; eauto).
    rewrite Hrest. symmetry in Hrest. simpl.
    destruct (changed last p); simpl;
      by rewrite !last_cons, (IH s1 rest' l _ Hrest).
Qed.

(** A line of [_log_stack] is never at debug level. *)
Lemma log_lines_status (k : Stack.t Blueprint) (s : Status.t) :
  log_lines (Blueprint:=Blueprint) [EvLog (log_level s) (log_message k s)]
  = [(log_level s, log_message k s)].
Proof.
  unfold log_lines, log_level. simpl.
  by repeat destruct (bool_decide _).
Qed.

Lemma log_lines_app (evs1 evs2 : list (Event Blueprint)) :
  log_lines (evs1 ++ evs2) = log_lines evs1 ++ log_lines evs2.
Proof. apply omap_app. Qed.

(** X5. An exception that [action.run] raises while [_run_stack_action]
    is polling leaves the method as it is: after statuses that all go on,
    the call made with the last of them raises, and so does the method; the
    trace ends with that call, no closing line is logged. *)
Theorem polling_error_propagates action given stk pre l e x1 x2 w fuel :
  or_else given (stack (hook w)) = Some stk →
  yields action stk PENDING (ext w) (pre ++ [l]) x1 →
  Forall (λ s, terminal s = false) (pre ++ [l]) →
  Status.eqb (hd l pre) SKIPPED = false →
  run action stk l x1 = (Raise e, x2) →
  (length pre < fuel)%nat →
  ∃ evs,
    _run_stack_action fuel action given true w
    = (Raise e, mkWorld (hook w) x2 (events w ++ evs))
    ∧ list.last evs = Some (EvRun (action_name action) stk l)
    ∧ length (runs evs) = S (S (length pre)).
Proof.
  intros Hstk Hy Hall Hskip Hrun Hfuel.
  assert (∃ rest, pre ++ [l] = hd l pre :: rest ∧ length rest = length pre)
    as (rest & Hseq & Hlen).
  { destruct pre as [|p pre]; simpl; eexists; split; try done.
    rewrite length_app. simpl. lia. }
  rewrite Hseq in Hy. simpl in Hy. destruct Hy as (x3 & Hrun1 & Hy).
  exists (EvRun (action_name action) stk PENDING
          :: EvLog (log_level (hd l pre)) (log_message stk (hd l pre))
          :: poll_events (action_name action) stk (Some (hd l pre))
               (hd l pre) (rest ++ [l])).
  split; [|split].
  - unfold _run_stack_action, _wait_for_stack. run_m.
    rewrite Hstk. simpl. rewrite Hrun1, Hskip. simpl.
    erewrite (_wait_for_stack_loop_raises action stk None e pre); simpl;
      eauto; try lia.
    + by rewrite <- !app_assoc.
    + eapply Forall_impl; [done|]. simpl. auto.
  - rewrite !last_cons. by erewrite poll_events_last.
  - change (length (runs (?a :: ?b :: ?c))) with (S (length (runs c))).
    rewrite runs_poll_events, length_app. simpl. lia.
Qed.

(** X6. A FAILED status ends [_wait_for_stack] with [StackFailed] whatever
    the target reason, also when the status carries that very reason: the
    exception has the stack's fully-qualified name and the reason of the
    status, and the closing line is logged before it. *)
Theorem failed_raises_whatever_till_reason
    action given stk last till pre f rest x' w fuel :
  or_else given (stack (hook w)) = Some stk →
  default SUBMITTED last :: rest = pre ++ [f] →
  yields action stk (default SUBMITTED last) (ext w) rest x' →
  Forall (λ s, terminal s = false ∧ reached till s = false) pre →
  Status.eqb f FAILED = true →
  (length rest < fuel)%nat →
  _wait_for_stack fuel action last given till w
  = (Raise (StackFailed (Stack.fqn stk) (Status.reason f)),
     mkWorld (hook w) x'
       (events w
        ++ poll_events (action_name action) stk last
             (default SUBMITTED last) rest
        ++ [EvLog (log_level f) (log_message stk f)])).
Proof.
  intros Hstk Hseq Hy Hpre Hf Hfuel.
  unfold _wait_for_stack. run_m. rewrite Hstk. simpl.
  erewrite (_wait_for_stack_loop_stops action stk till pre); eauto.
  - simpl. rewrite Hf. by rewrite <- !app_assoc.
  - by rewrite (terminal_FAILED _ Hf).
Qed.

Lemma reached_empty status : reached (Some EmptyString) status = false.
Proof. reflexivity. Qed.

Lemma _wait_for_stack_loop_empty_till fuel :
  ∀ action stk last status w,
    _wait_for_stack_loop fuel action stk (Some EmptyString) last status w
    = _wait_for_stack_loop fuel action stk None last status w.
Proof.
  induction fuel as [|fuel IH]; intros action stk last status w;
    cbn [_wait_for_stack_loop]; [done|].
  rewrite reached_empty, reached_None.
  destruct (terminal status); [done|].
  destruct (changed last status); run_m;
    destruct (run action stk status (ext w)) as [[s1| e |] x1]; simpl;
    by rewrite ?IH.
Qed.

(** X7. An empty [till_reason] is no target at all: [_wait_for_stack]
    called with the empty string does what it does when called without
    [till_reason], on every input. *)
Theorem empty_till_reason_is_ignored fuel action last given w :
  _wait_for_stack fuel action last given (Some EmptyString) w
  = _wait_for_stack fuel action last given None w.
Proof.
  unfold _wait_for_stack. run_m.
  destruct (or_else given (stack (hook w))); simpl; [|done].
  by rewrite _wait_for_stack_loop_empty_till.
Qed.

(** The loop on an action whose statuses all go on: the fuel runs out,
    one call per unit. *)
Lemma _wait_for_stack_loop_spins action stk till :
  (∀ st x, ∃ s' x',
     run action stk st x = (Ok s', x')
     ∧ terminal s' = false ∧ reached till s' = false) →
  ∀ fuel last status w,
    terminal status = false → reached till status = false →
    ∃ w',
      _wait_for_stack_loop fuel action stk till last status w
      = (OutOfFuel, w')
      ∧ length (runs (events w')) = (length (runs (events w)) + fuel)%nat.
Proof.
  intros Hgo. induction fuel as [|fuel IH]; intros last status w Ht Hr.
  { exists w. split; [done|]. lia. }
  cbn [_wait_for_stack_loop]. rewrite Ht, Hr.
  destruct (Hgo status (ext w)) as (s' & x' & Hrun & Ht' & Hr').
  destruct (changed last status); run_m; rewrite Hrun; simpl;
    match goal with
    | |- context [_wait_for_stack_loop fuel action stk till ?l s' ?w1] =>
      destruct (IH l s' w1 Ht' Hr') as (w' & -> & Hlen)
    end;
    exists w'; (split; [done|]); rewrite Hlen; simpl;
    rewrite !runs_app, !length_app; simpl; lia.
Qed.

(** X8. [_wait_for_stack] has no timeout of its own: on an action whose
    every status goes on (not terminal, not the target reason), started
    from such a status, the loop has not ended after any number of turns,
    and it has called the action once per turn. *)
Theorem polling_has_no_timeout action given stk last till w :
  or_else given (stack (hook w)) = Some stk →
  (∀ st x, ∃ s' x',
     run action stk st x = (Ok s', x')
     ∧ terminal s' = false ∧ reached till s' = false) →
  terminal (default SUBMITTED last) = false →
  reached till (default SUBMITTED last) = false →
  ∀ fuel, ∃ w',
    _wait_for_stack fuel action last given till w = (OutOfFuel, w')
    ∧ length (runs (events w')) = (length (runs (events w)) + fuel)%nat.
Proof.
  intros Hstk Hgo Ht Hr fuel.
  destruct (_wait_for_stack_loop_spins action stk till Hgo fuel last
              (default SUBMITTED last) w Ht Hr) as (w' & Hloop & Hlen).
  exists w'. split; [|done].
  unfold _wait_for_stack. run_m. rewrite Hstk. simpl. by rewrite Hloop.
Qed.

(** The loop without [last_status]: no status line, and the first call,
    if any, is made with the status the loop starts from. *)
Lemma _wait_for_stack_loop_without_last fuel :
  ∀ action stk till status w,
    ∃ evs,
      events (_wait_for_stack_loop fuel action stk till None status w).2
      = events w ++ evs
      ∧ log_lines evs = []
      ∧ (runs evs = []
         ∨ ∃ tl, runs evs = (action_name action, stk, status) :: tl).
Proof.
  induction fuel as [|fuel IH]; intros action stk till status w;
    cbn [_wait_for_stack_loop].
  { exists []. rewrite app_nil_r. auto. }
  destruct (terminal status). { exists []. rewrite app_nil_r. auto. }
  destruct (reached till status). { exists []. rewrite app_nil_r. auto. }
  simpl. run_m.
  destruct (run action stk status (ext w)) as [[s1| e |] x1]; simpl.
  - match goal with
    | |- context [_wait_for_stack_loop fuel action stk till None s1 ?w1] =>
      destruct (IH action stk till s1 w1) as (evs & -> & Hl & _)
    end.
    exists (EvLog DEBUG "waiting for stack to complete..."
            :: EvRun (action_name action) stk status :: evs).
    simpl. split; [by rewrite <- !app_assoc|].
    split; [exact Hl|]. right. by eexists.
  - exists [EvLog DEBUG "waiting for stack to complete...";
            EvRun (action_name action) stk status].
    simpl. split; [by rewrite <- !app_assoc|]. split; [done|].
    right. by eexists.
  - exists [EvLog DEBUG "waiting for stack to complete...";
            EvRun (action_name action) stk status].
    simpl. split; [by rewrite <- !app_assoc|]. split; [done|].
    right. by eexists.
Qed.

(** X9. [_wait_for_stack] called without [last_status] polls from the
    constant SUBMITTED and logs no change of reason: the first call of the
    action, if there is one, is made with SUBMITTED, and at most one line
    above debug level, the closing one, is logged. *)
Theorem without_last_status_no_change_is_logged fuel action given till w :
  ∃ evs,
    events (_wait_for_stack fuel action None given till w).2
    = events w ++ evs
    ∧ (length (log_lines evs) ≤ 1)%nat
    ∧ (runs evs = []
       ∨ ∃ stk tl, runs evs = (action_name action, stk, SUBMITTED) :: tl).
Proof.
  unfold _wait_for_stack. run_m.
  destruct (or_else given (stack (hook w))) as [stk|]; simpl.
  2: { exists []. rewrite app_nil_r. simpl. auto. }
  destruct (_wait_for_stack_loop_without_last fuel action stk till
              SUBMITTED w) as (evs & Hev & Hl & Hr).
  destruct (_wait_for_stack_loop fuel action stk till None SUBMITTED w)
    as [[s| e |] w1]; simpl in *.
  - exists (evs ++ [EvLog (log_level s) (log_message stk s)]).
    split; [destruct (Status.eqb s FAILED); simpl;
            by rewrite Hev, <- app_assoc|].
    rewrite log_lines_app, Hl, log_lines_status, runs_app. simpl.
    rewrite app_nil_r. split; [lia|].
    destruct Hr as [->|(tl & ->)]; eauto.
  - exists evs. rewrite Hl. simpl. split; [done|]. split; [lia|].
    destruct Hr as [->|(tl & ->)]; eauto.
  - exists evs. rewrite Hl. simpl. split; [done|]. split; [lia|].
    destruct Hr as [->|(tl & ->)]; eauto.
Qed.

(** While the reason stays what it was at the last line, the loop logs
    nothing above debug level. *)
Lemma log_lines_poll_events_steady name stk l pre :
  ∀ status rest f,
    status :: rest = pre ++ [f] →
    Forall (λ s, Status.reason s = Status.reason l) pre →
    log_lines (poll_events name stk (Some l) status rest) = [].
Proof.
  induction pre as [|p pre IH]; intros status rest f Heq Hpre.
  - by simplify_eq/=.
  - simplify_eq/=. apply Forall_cons in Hpre as [Hp Hpre].
    assert (∃ s1 rest', pre ++ [f] = s1 :: rest') as (s1 & rest' & Hrest)
      by (destruct pre; simpl; eauto).
    rewrite Hrest. symmetry in Hrest. simpl.
    rewrite bool_decide_eq_false_2 by (intros Hne; by apply Hne).
    simpl. by apply (IH s1 rest' f).
Qed.

(** X10. Polling a stack whose reason does not change floods no log: when
    every status before the terminal one carries the reason of the first,
    [_run_stack_action] with [wait=True] logs two lines above debug level
    however many turns it takes, the line of the first status and the
    closing line. (They are the same line twice when the first status is
    already terminal.) *)
Theorem steady_reason_logs_two_lines action given stk pre f x' w fuel :
  or_else given (stack (hook w)) = Some stk →
  yields action stk PENDING (ext w) (pre ++ [f]) x' →
  Forall (λ s, terminal s = false) pre →
  Forall (λ s, Status.reason s = Status.reason (hd f pre)) pre →
  Status.eqb (hd f pre) SKIPPED = false →
  terminal f = true →
  (length pre < fuel)%nat →
  ∃ evs,
    events (_run_stack_action fuel action given true w).2 = events w ++ evs
    ∧ log_lines evs
      = [(log_level (hd f pre), log_message stk (hd f pre));
         (log_level f, log_message stk f)].
Proof.
  intros Hstk Hy Hpre Hsame Hskip Hf Hfuel.
  rewrite (_run_stack_action_waits action given stk pre f x' w fuel)
    by done.
  simpl. eexists. split; [done|]. unfold wait_events.
  assert (∃ rest, pre ++ [f] = hd f pre :: rest) as (rest & Hseq).
  { destruct pre; simpl; eauto. }
  rewrite Hseq. simpl tail.
  match goal with
  | |- log_lines (?a :: ?b :: ?c) = _ =>
    change (a :: b :: c) with ([a] ++ [b] ++ c)
  end.
  rewrite !log_lines_app, !log_lines_status.
  by erewrite log_lines_poll_events_steady.
Qed.

(** The tags [__init__] leaves in [self.args]. *)
Lemma __init___args_tags
    (_launch_stack _destroy_stack :
       CfnginContext.t → Provider → Stack.t Blueprint → Status.t → Ext
       → Res Status.t * Ext)
    (ctx : CfnginContext.t) (prov : Provider)
    (kwargs : gmap string (gmap string string)) :
  HookArgsBaseModel.tags
    (args (__init__ _launch_stack _destroy_stack ctx prov kwargs))
  = CfnginContext.tags ctx ∪ default ∅ (kwargs !! "tags").
Proof.
  unfold __init__, dict_update, HookArgsBaseModel.parse_obj. simpl.
  destruct (kwargs !! "tags") as [t|] eqn:Hk; simpl.
  - by rewrite Hk.
  - by rewrite lookup_insert_eq.
Qed.

(** Merging the context's tags under a mapping that has them all changes
    nothing. *)
Lemma dict_update_absorbs (ctx a : gmap string string) :
  ctx ⊆ a → dict_update ctx a = a.
Proof.
  intros Hsub. unfold dict_update. apply map_eq. intros i.
  rewrite lookup_union. destruct (a !! i) as [v|] eqn:Ha; simpl.
  - by destruct (ctx !! i).
  - destruct (ctx !! i) as [v|] eqn:Hc; [|done].
    eapply lookup_weaken in Hc; [|done]. congruence.
Qed.

(** X11. On a hook as [__init__] builds it, [self.args.tags] already is
    the mapping of the [tags] property: the property adds nothing to it.
    Every tag of the context is in it with the context's value, and its
    keys are those of the context and of the [tags] argument. *)
Theorem fresh_hook_args_hold_the_merged_tags
    (_launch_stack _destroy_stack :
       CfnginContext.t → Provider → Stack.t Blueprint → Status.t → Ext
       → Res Status.t * Ext)
    (ctx : CfnginContext.t) (prov : Provider)
    (kwargs : gmap string (gmap string string)) :
  let self := __init__ _launch_stack _destroy_stack ctx prov kwargs in
  HookArgsBaseModel.tags (args self) = tags self
  ∧ CfnginContext.tags ctx ⊆ tags self
  ∧ dom (tags self)
    = dom (CfnginContext.tags ctx) ∪ dom (default ∅ (kwargs !! "tags")).
Proof.
  intros self.
  assert (CfnginContext.tags ctx ⊆ HookArgsBaseModel.tags (args self))
    as Hsub.
  { unfold self. rewrite __init___args_tags. apply map_union_subseteq_l. }
  assert (tags self = HookArgsBaseModel.tags (args self)) as ->.
  { unfold tags. by apply dict_update_absorbs. }
  repeat split; [done|].
  unfold self. by rewrite __init___args_tags, dom_union_L.
Qed.

(** X12. [generate_stack] gives the stack the hook's name, the
    fully-qualified form of that name, the hook's blueprint and, as tags,
    [self.args.tags] as they are, not the [tags] property. The two are the
    same mapping exactly when every key of the context's tags is a key of
    [self.args.tags], as it is after [__init__]; a context tag whose key
    [args.tags] lack is in the property and not on the stack. *)
Theorem generated_stack_carries_the_tags
    (self : Hook Provider Blueprint Ext) (get_fqn : string → string) :
  let stk := generate_stack self get_fqn in
  Stack.tags stk = HookArgsBaseModel.tags (args self)
  ∧ Stack.name stk = stack_name self
  ∧ Stack.fqn stk = get_fqn (stack_name self)
  ∧ Stack._blueprint stk = blueprint self
  ∧ (Stack.tags stk = tags self
     ↔ dom (CfnginContext.tags (context self))
       ⊆ dom (HookArgsBaseModel.tags (args self)))
  ∧ (∀ k v,
       CfnginContext.tags (context self) !! k = Some v →
       HookArgsBaseModel.tags (args self) !! k = None →
       tags self !! k = Some v ∧ Stack.tags stk !! k = None).
Proof.
  intros stk. do 4 (split; [done|]). unfold stk, generate_stack, tags.
  simpl. unfold dict_update. split; [split|].
  - intros Heq k Hk. apply elem_of_dom in Hk as [v Hk]. apply elem_of_dom.
    apply (f_equal (λ m : gmap string string, m !! k)) in Heq.
    rewrite lookup_union, Hk in Heq.
    destruct (HookArgsBaseModel.tags (args self) !! k); [done|].
    by simpl in Heq.
  - intros Hdom. apply map_eq. intros k. rewrite lookup_union.
    destruct (HookArgsBaseModel.tags (args self) !! k) as [u|] eqn:Ha;
      simpl.
    + by destruct (CfnginContext.tags (context self) !! k).
    + destruct (CfnginContext.tags (context self) !! k) as [v|] eqn:Hc;
        [|done].
      assert (k ∈ dom (HookArgsBaseModel.tags (args self))) as Hk.
      { apply Hdom, elem_of_dom. eauto. }
      apply elem_of_dom in Hk as [u Hu]. congruence.
  - intros k v Hc Ha. split; [|done]. by rewrite lookup_union, Ha, Hc.
Qed.

(** X13. The [tags] property by itself, on any hook: a key of
    [self.args.tags] has the value it has there, any other key the value
    of the context. *)
Theorem tags_property_prefers_args
    (self : Hook Provider Blueprint Ext) (k : string) :
  tags self !! k
  = match HookArgsBaseModel.tags (args self) !! k with
    | Some v => Some v
    | None => CfnginContext.tags (context self) !! k
    end.
Proof.
  unfold tags, dict_update. rewrite lookup_union.
  by destruct (HookArgsBaseModel.tags (args self) !! k),
              (CfnginContext.tags (context self) !! k).
Qed.

(** X14. [get_template_description]: a suffix that is [None] or empty
    gives the plain description; a suffix that is not empty gives another
    text than the plain one, and two such suffixes give the same
    description only if they are the same. *)
Theorem template_description_tells_the_suffix (module_name : string) :
  (∀ suffix, truthy suffix = false →
     get_template_description module_name suffix
     = "Automatically generated by " +:+ module_name)
  ∧ (∀ s, s ≠ EmptyString →
       get_template_description module_name (Some s)
       ≠ get_template_description module_name None)
  ∧ (∀ s1 s2, s1 ≠ EmptyString → s2 ≠ EmptyString →
       get_template_description module_name (Some s1)
       = get_template_description module_name (Some s2) →
       s1 = s2).
Proof.
  unfold get_template_description. repeat split.
  - intros [s|] Hs; [|done]. by rewrite Hs.
  - intros s Hs. simpl. rewrite bool_decide_eq_true_2 by done.
    intros Heq. symmetry in Heq. by eapply string_app_ne in Heq.
  - intros s1 s2 Hs1 Hs2. simpl. rewrite !bool_decide_eq_true_2 by done.
    intros Heq. by do 2 apply (inj (String.app _)) in Heq.
Qed.

(** X15. A hook fresh from [__init__] holds no stack: [deploy_stack],
    [destroy_stack] and [_wait_for_stack] called on it without a stack
    raise [ValueError] and leave everything as it was. *)
Theorem fresh_hook_needs_a_stack
    (_launch_stack _destroy_stack :
       CfnginContext.t → Provider → Stack.t Blueprint → Status.t → Ext
       → Res Status.t * Ext)
    (ctx : CfnginContext.t) (prov : Provider)
    (kwargs : gmap string (gmap string string))
    (x : Ext) (evs : list (Event Blueprint))
    m fuel wait action last till :
  let w :=
    mkWorld (__init__ _launch_stack _destroy_stack ctx prov kwargs) x evs in
  call_method m fuel None wait w = (Raise (ValueError "stack required"), w)
  ∧ _wait_for_stack fuel action last None till w
    = (Raise (ValueError "stack required"), w).
Proof. intros w. by destruct m. Qed.

(** X16. The actions of a hook are bound to what the hook was built
    with: without [wait], [deploy_stack] gives what [_launch_stack] gives
    on the hook's context and provider, the stack and PENDING, and
    [destroy_stack] what [_destroy_stack] gives; neither calls the other
    one's operation. *)
Theorem hook_actions_are_bound
    (_launch_stack _destroy_stack :
       CfnginContext.t → Provider → Stack.t Blueprint → Status.t → Ext
       → Res Status.t * Ext)
    (ctx : CfnginContext.t) (prov : Provider)
    (kwargs : gmap string (gmap string string))
    (x : Ext) (evs : list (Event Blueprint)) stk m fuel :
  let w :=
    mkWorld (__init__ _launch_stack _destroy_stack ctx prov kwargs) x evs in
  let operation :=
    match m with
    | DeployStack => _launch_stack
    | DestroyStack => _destroy_stack
    end in
  let out := call_method m fuel (Some stk) false w in
  out.1 = (operation ctx prov stk PENDING x).1
  ∧ ext out.2 = (operation ctx prov stk PENDING x).2
  ∧ runs (events out.2)
    = runs evs
      ++ [(match m with
           | DeployStack => "HookDeployAction"
           | DestroyStack => "HookDestroyAction"
           end, stk, PENDING)].
Proof.
  intros w operation out. subst operation out.
  rewrite call_method_unfold. unfold _run_stack_action. run_m.
  destruct m; simpl;
    match goal with
    | |- context [?f ctx prov stk PENDING x] =>
      destruct (f ctx prov stk PENDING x) as [[s| e |] x1]
    end; simpl; rewrite ?runs_app; simpl; by rewrite ?app_nil_r.
Qed.

End HookProofs.

(** ** The statements on the scripted action *)

#[local] Ltac by_run :=
  simpl; repeat (eexists; split; [reflexivity|]); reflexivity.

(** C1 on the spec's own example, context tags [{a: 1, b: 2}] and hook
    tags [{b: 3, c: 4}]. The merge of the [tags] property, taken on these
    two mappings as they are, gives [{a: 1, b: 3, c: 4}]: the hook's value
    wins, as the property is written to do. On the hook that [__init__]
    builds from them the property gives [{a: 1, b: 2, c: 4}]: the
    [update] in [__init__] has put the context's 2 over the hook's 3
    before the property is read. *)
Lemma tags_hook_value_does_not_win :
  let ctx : gmap string string := {[ "a" := "1"; "b" := "2" ]} in
  let hook_tags : gmap string string := {[ "b" := "3"; "c" := "4" ]} in
  let self := scripted_hook ctx {[ "tags" := hook_tags ]} None in
  let unmerged :=
    mkHook (HookArgsBaseModel.mk hook_tags) (blueprint self) (context self)
           (provider self) (stack self) (stack_name self)
           (_deploy_action self) (_destroy_action self) in
  tags unmerged = {[ "a" := "1"; "b" := "3"; "c" := "4" ]}
  ∧ tags self = {[ "a" := "1"; "b" := "2"; "c" := "4" ]}
  ∧ tags self ≠ {[ "a" := "1"; "b" := "3"; "c" := "4" ]}.
Proof.
  split; [by vm_compute|]. split; [by vm_compute|]. intros Heq.
  apply (f_equal (λ m : gmap string string, m !! "b")) in Heq.
  vm_compute in Heq. discriminate.
Qed.

(** C2 on a deploy that is submitted, rolls back and fails. *)
Lemma deploy_stack_raises_StackFailed_witness :
  yields (_deploy_action (hook failing_world)) vpc PENDING
    (ext failing_world) ([SUBMITTED; rollback] ++ [boom]) []
  ∧ Forall (λ s, terminal s = false) [SUBMITTED; rollback]
  ∧ Status.eqb (hd boom [SUBMITTED; rollback]) SKIPPED = false
  ∧ Status.eqb boom FAILED = true
  ∧ (length [SUBMITTED; rollback] < 3)%nat
  ∧ deploy_stack 3 (Some vpc) true failing_world
    = (Raise (StackFailed "ns-vpc" (Some "boom")),
       mkWorld (hook failing_world) []
         (events failing_world
          ++ wait_events "HookDeployAction" vpc SUBMITTED [rollback; boom]
               boom)).
Proof.
  assert (yields (_deploy_action (hook failing_world)) vpc PENDING
            (ext failing_world) ([SUBMITTED; rollback] ++ [boom]) [])
    as Hy by by_run.
  assert (Forall (λ s, terminal s = false) [SUBMITTED; rollback])
    as Hpre by (repeat constructor).
  split; [exact Hy|]. split; [exact Hpre|].
  do 3 (split; [done || (simpl; lia)|]).
  exact (deploy_stack_raises_StackFailed vpc [SUBMITTED; rollback] boom []
           failing_world 3 Hy Hpre eq_refl eq_refl
           ltac:(simpl; lia)).
Defined.

(** C3 on a deploy that is submitted, rolls back and completes. *)
Lemma deploy_stack_returns_COMPLETE_witness :
  distinct_codes
  ∧ yields (_deploy_action (hook completing_world)) vpc PENDING
      (ext completing_world) ([SUBMITTED; rollback] ++ [COMPLETE]) []
  ∧ Forall (λ s, terminal s = false) [SUBMITTED; rollback]
  ∧ Status.eqb (hd COMPLETE [SUBMITTED; rollback]) SKIPPED = false
  ∧ Status.eqb COMPLETE COMPLETE = true
  ∧ (length [SUBMITTED; rollback] < 3)%nat
  ∧ deploy_stack 3 (Some vpc) true completing_world
    = (Ok COMPLETE,
       mkWorld (hook completing_world) []
         (events completing_world
          ++ wait_events "HookDeployAction" vpc SUBMITTED
               [rollback; COMPLETE] COMPLETE)).
Proof.
  assert distinct_codes as Hd
    by (unfold distinct_codes; by apply (bool_decide_unpack _); vm_compute).
  assert (yields (_deploy_action (hook completing_world)) vpc PENDING
            (ext completing_world) ([SUBMITTED; rollback] ++ [COMPLETE]) [])
    as Hy by by_run.
  assert (Forall (λ s, terminal s = false) [SUBMITTED; rollback])
    as Hpre by (repeat constructor).
  split; [exact Hd|]. split; [exact Hy|]. split; [exact Hpre|].
  do 3 (split; [done || (simpl; lia)|]).
  exact (deploy_stack_returns_COMPLETE vpc [SUBMITTED; rollback] COMPLETE []
           completing_world 3 Hd Hy Hpre eq_refl eq_refl
           ltac:(simpl; lia)).
Defined.

(** C4 on a destroy whose first status is a SKIPPED one with a reason:
    the COMPLETE that the action would return next is never asked for. *)
Lemma skipped_returns_without_polling_witness :
  or_else (Some vpc) (stack (hook skipping_world)) = Some vpc
  ∧ run (method_action DestroyStack (hook skipping_world)) vpc PENDING
        (ext skipping_world) = (Ok nochange, [Ok COMPLETE])
  ∧ Status.eqb nochange SKIPPED = true
  ∧ call_method DestroyStack 7 (Some vpc) true skipping_world
    = (Ok nochange,
       mkWorld (hook skipping_world) [Ok COMPLETE]
         (events skipping_world
          ++ [EvRun "HookDestroyAction" vpc PENDING;
              EvLog INFO "vpc:skipped (nochange)"]))
  ∧ runs (events
            (call_method DestroyStack 7 (Some vpc) true skipping_world).2)
    = runs (events skipping_world)
      ++ [("HookDestroyAction", vpc, PENDING)].
Proof.
  do 3 (split; [done|]).
  exact (skipped_returns_without_polling DestroyStack (Some vpc) vpc
           nochange [Ok COMPLETE] skipping_world 7 eq_refl eq_refl eq_refl).
Defined.

(** C5 on a deploy without wait whose status is not terminal, on the
    stack the hook holds. *)
Lemma no_wait_runs_once_witness :
  or_else None (stack (hook holding_world)) = Some vpc
  ∧ run (method_action DeployStack (hook holding_world)) vpc PENDING
        (ext holding_world) = (Ok SUBMITTED, [Ok COMPLETE])
  ∧ call_method DeployStack 0 None false holding_world
    = (Ok SUBMITTED,
       mkWorld (hook holding_world) [Ok COMPLETE]
         (events holding_world
          ++ [EvRun "HookDeployAction" vpc PENDING;
              EvLog NOTICE "vpc:submitted"]))
  ∧ runs (events (call_method DeployStack 0 None false holding_world).2)
    = runs (events holding_world) ++ [("HookDeployAction", vpc, PENDING)].
Proof.
  do 2 (split; [done|]).
  exact (no_wait_runs_once DeployStack None vpc SUBMITTED [Ok COMPLETE]
           holding_world 0 eq_refl eq_refl).
Defined.

(** C6 on a hook that holds no stack. *)
Lemma no_stack_raises_witness :
  stack (hook completing_world) = None
  ∧ call_method DestroyStack 5 None true completing_world
    = (Raise (ValueError "stack required"), completing_world).
Proof.
  split; [done|].
  exact (no_stack_raises DestroyStack true completing_world 5 eq_refl).
Defined.

(** C7 on the spec's example: the target reason is CREATE_IN_PROGRESS and
    the second status carries it; the loop stops there and leaves the
    COMPLETE that would come next with the action. *)
Lemma till_reason_stops_the_loop_witness :
  or_else (Some vpc) (stack (hook creating_world)) = Some vpc
  ∧ "CREATE_IN_PROGRESS" ≠ EmptyString
  ∧ default SUBMITTED (Some SUBMITTED) :: [create_in_progress]
    = [SUBMITTED] ++ [create_in_progress]
  ∧ yields (_deploy_action (hook creating_world)) vpc
      (default SUBMITTED (Some SUBMITTED)) (ext creating_world)
      [create_in_progress] [Ok COMPLETE]
  ∧ Forall (λ s, terminal s = false
                 ∧ Status.reason s ≠ Some "CREATE_IN_PROGRESS") [SUBMITTED]
  ∧ (terminal create_in_progress = true
     ∨ Status.reason create_in_progress = Some "CREATE_IN_PROGRESS")
  ∧ (length [create_in_progress] < 2)%nat
  ∧ _wait_for_stack 2 (_deploy_action (hook creating_world))
      (Some SUBMITTED) (Some vpc) (Some "CREATE_IN_PROGRESS") creating_world
    = (Ok create_in_progress,
       mkWorld (hook creating_world) [Ok COMPLETE]
         (events creating_world
          ++ poll_events "HookDeployAction" vpc (Some SUBMITTED) SUBMITTED
               [create_in_progress]
          ++ [EvLog NOTICE "vpc:submitted (CREATE_IN_PROGRESS)"])).
Proof.
  assert (yields (_deploy_action (hook creating_world)) vpc
            (default SUBMITTED (Some SUBMITTED)) (ext creating_world)
            [create_in_progress] [Ok COMPLETE]) as Hy by by_run.
  assert (Forall (λ s, terminal s = false
                       ∧ Status.reason s ≠ Some "CREATE_IN_PROGRESS")
            [SUBMITTED]) as Hpre by (repeat constructor; done).
  do 3 (split; [done|]). split; [exact Hy|]. split; [exact Hpre|].
  split; [by right|]. split; [simpl; lia|].
  exact (proj1 (till_reason_stops_the_loop
                  (_deploy_action (hook creating_world)) (Some vpc) vpc
                  (Some SUBMITTED) "CREATE_IN_PROGRESS" [SUBMITTED]
                  create_in_progress [create_in_progress] [Ok COMPLETE]
                  creating_world 2 eq_refl ltac:(done) eq_refl Hy Hpre
                  (or_intror eq_refl) ltac:(simpl; lia))).
Defined.

(** C7 where a terminal status comes first: the action completes before
    the status with the awaited reason would come; the loop stops at
    COMPLETE and never asks for the next status. *)
Lemma terminal_status_stops_the_loop_first :
  let out :=
    _wait_for_stack 3 (_deploy_action (hook early_world))
      (Some SUBMITTED) (Some vpc) (Some "CREATE_IN_PROGRESS") early_world in
  out.1 = Ok COMPLETE
  ∧ ext out.2 = [Ok create_in_progress]
  ∧ runs (events out.2) = [("HookDeployAction", vpc, SUBMITTED)].
Proof. by vm_compute. Qed.

(** C7 as it was written fails for the empty target: with
    [till_reason] the empty string and a status whose reason is the empty
    string, so that the two are equal, the loop does not stop at that
    status; it calls the action again and returns the COMPLETE that
    follows. *)
Lemma empty_till_reason_does_not_stop_the_loop :
  let out :=
    _wait_for_stack 3 (_deploy_action (hook blank_world))
      (Some SUBMITTED) (Some vpc) (Some EmptyString) blank_world in
  Status.reason blank = Some EmptyString
  ∧ terminal blank = false
  ∧ out.1 = Ok COMPLETE
  ∧ out.1 ≠ Ok blank
  ∧ runs (events out.2)
    = [("HookDeployAction", vpc, SUBMITTED); ("HookDeployAction", vpc, blank)].
Proof.
  do 3 (split; [by vm_compute|]). split; [|by vm_compute].
  vm_compute. discriminate.
Qed.

(** C8 on the stack [vpc]: the three lines. *)
Lemma status_lines_witness :
  distinct_codes
  ∧ yields (_deploy_action (hook completing_world)) vpc PENDING
      (ext completing_world)
      [with_reason SUBMITTED None; with_reason SUBMITTED (Some "rollback");
       with_reason COMPLETE None] []
  ∧ (2 < 3)%nat
  ∧ ∃ evs,
      _run_stack_action 3 (_deploy_action (hook completing_world))
        (Some vpc) true completing_world
      = (Ok (with_reason COMPLETE None),
         mkWorld (hook completing_world) []
           (events completing_world ++ evs))
      ∧ log_lines evs
        = [(NOTICE, "vpc:submitted"); (NOTICE, "vpc:submitted (rollback)");
           (SUCCESS, "vpc:complete")]
      ∧ NoDup (log_lines evs).
Proof.
  assert distinct_codes as Hd
    by (unfold distinct_codes; by apply (bool_decide_unpack _); vm_compute).
  assert (yields (_deploy_action (hook completing_world)) vpc PENDING
            (ext completing_world)
            [with_reason SUBMITTED None;
             with_reason SUBMITTED (Some "rollback");
             with_reason COMPLETE None] []) as Hy by by_run.
  split; [exact Hd|]. split; [exact Hy|]. split; [lia|].
  exact (proj2 (proj2 (proj2
           (status_lines (_deploy_action (hook completing_world)) vpc []
              completing_world 3 Hd Hy ltac:(lia))))).
Defined.

(** C9 on a stack that stays SUBMITTED for one more turn and then
    completes: the loop calls [action.run] twice and nothing lies between
    the two calls but the heartbeat. *)
Lemma polling_loop_is_not_paced :
  let out :=
    _wait_for_stack 3 (_deploy_action (hook holding_world))
      (Some SUBMITTED) None None holding_world in
  out.1 = Ok COMPLETE
  ∧ events out.2
    = [EvLog DEBUG "waiting for stack to complete...";
       EvRun "HookDeployAction" vpc SUBMITTED;
       EvLog DEBUG "waiting for stack to complete...";
       EvRun "HookDeployAction" vpc SUBMITTED;
       EvLog SUCCESS "vpc:complete"]
  ∧ paced (events out.2) = false.
Proof. by vm_compute. Qed.



(** ** The further properties on the scripted action *)

(** X1 on a deploy that completes after a rollback. *)
Lemma returned_status_is_logged_last_witness :
  let out := call_method DeployStack 3 (Some vpc) true completing_world in
  out = (Ok COMPLETE, out.2)
  ∧ ∃ stk evs,
      or_else (Some vpc) (stack (hook completing_world)) = Some stk
      ∧ events out.2
        = events completing_world ++ evs
          ++ [EvLog (log_level COMPLETE) (log_message stk COMPLETE)].
Proof.
  intros out.
  assert (out = (Ok COMPLETE, out.2)) as Hout by (by vm_compute).
  split; [exact Hout|].
  exact (returned_status_is_logged_last DeployStack 3 (Some vpc) true
           completing_world COMPLETE out.2 Hout).
Defined.

(** X2 on a destroy whose first status is SKIPPED. *)
Lemma waited_status_is_final_witness :
  let out := call_method DestroyStack 3 (Some vpc) true skipping_world in
  out = (Ok nochange, out.2)
  ∧ (Status.eqb nochange SKIPPED = true
     ∨ (Status.eqb nochange COMPLETE = true
        ∧ Status.eqb nochange FAILED = false)).
Proof.
  intros out.
  assert (out = (Ok nochange, out.2)) as Hout by (by vm_compute).
  split; [exact Hout|].
  exact (waited_status_is_final DestroyStack 3 (Some vpc) skipping_world
           nochange out.2 Hout).
Defined.

(** X3 on a wait that ends at the target reason. *)
Lemma _wait_for_stack_returns_only_when_done_witness :
  let out :=
    _wait_for_stack 2 (_deploy_action (hook creating_world))
      (Some SUBMITTED) (Some vpc) (Some "CREATE_IN_PROGRESS")
      creating_world in
  out = (Ok create_in_progress, out.2)
  ∧ Status.eqb create_in_progress FAILED = false
  ∧ (Status.eqb create_in_progress COMPLETE = true
     ∨ reached (Some "CREATE_IN_PROGRESS") create_in_progress = true).
Proof.
  intros out.
  assert (out = (Ok create_in_progress, out.2)) as Hout by (by vm_compute).
  split; [exact Hout|].
  exact (_wait_for_stack_returns_only_when_done 2
           (_deploy_action (hook creating_world)) (Some SUBMITTED)
           (Some vpc) (Some "CREATE_IN_PROGRESS") creating_world
           create_in_progress out.2 Hout).
Defined.

(** X4 on an action that is throttled at once. *)
Lemma action_error_propagates_witness :
  or_else (Some vpc) (stack (hook throttled_world)) = Some vpc
  ∧ run (method_action DeployStack (hook throttled_world)) vpc PENDING
        (ext throttled_world) = (Raise (ProviderError "throttled"), [])
  ∧ call_method DeployStack 4 (Some vpc) true throttled_world
    = (Raise (ProviderError "throttled"),
       mkWorld (hook throttled_world) []
         (events throttled_world
          ++ [EvRun "HookDeployAction" vpc PENDING])).
Proof.
  do 2 (split; [done|]).
  exact (action_error_propagates DeployStack (Some vpc) vpc
           (ProviderError "throttled") [] true throttled_world 4
           eq_refl eq_refl).
Defined.

(** X5 on an action that is throttled on its third call. *)
Lemma polling_error_propagates_witness :
  or_else (Some vpc) (stack (hook flaky_world)) = Some vpc
  ∧ yields (_deploy_action (hook flaky_world)) vpc PENDING
      (ext flaky_world) ([SUBMITTED] ++ [rollback]) [Raise (ProviderError "throttled")]
  ∧ Forall (λ s, terminal s = false) ([SUBMITTED] ++ [rollback])
  ∧ Status.eqb (hd rollback [SUBMITTED]) SKIPPED = false
  ∧ run (_deploy_action (hook flaky_world)) vpc rollback
        [Raise (ProviderError "throttled")]
    = (Raise (ProviderError "throttled"), [])
  ∧ (length [SUBMITTED] < 2)%nat
  ∧ ∃ evs,
      _run_stack_action 2 (_deploy_action (hook flaky_world)) (Some vpc)
        true flaky_world
      = (Raise (ProviderError "throttled"),
         mkWorld (hook flaky_world) [] (events flaky_world ++ evs))
      ∧ list.last evs = Some (EvRun "HookDeployAction" vpc rollback)
      ∧ length (runs evs) = 3%nat.
Proof.
  assert (yields (_deploy_action (hook flaky_world)) vpc PENDING
            (ext flaky_world) ([SUBMITTED] ++ [rollback])
            [Raise (ProviderError "throttled")]) as Hy by by_run.
  assert (Forall (λ s, terminal s = false) ([SUBMITTED] ++ [rollback]))
    as Hall by (repeat constructor).
  split; [done|]. split; [exact Hy|]. split; [exact Hall|].
  do 2 (split; [done|]). split; [simpl; lia|].
  exact (polling_error_propagates (_deploy_action (hook flaky_world))
           (Some vpc) vpc [SUBMITTED] rollback (ProviderError "throttled")
           [Raise (ProviderError "throttled")] [] flaky_world 2
           eq_refl Hy Hall eq_refl eq_refl ltac:(simpl; lia)).
Defined.

(** X6 on a wait for the reason "boom" that meets a FAILED status with
    that reason. *)
Lemma failed_raises_whatever_till_reason_witness :
  or_else (Some vpc) (stack (hook doomed_world)) = Some vpc
  ∧ default SUBMITTED (Some SUBMITTED) :: [boom] = [SUBMITTED] ++ [boom]
  ∧ yields (_deploy_action (hook doomed_world)) vpc
      (default SUBMITTED (Some SUBMITTED)) (ext doomed_world) [boom] []
  ∧ Forall (λ s, terminal s = false ∧ reached (Some "boom") s = false)
      [SUBMITTED]
  ∧ Status.eqb boom FAILED = true
  ∧ reached (Some "boom") boom = true
  ∧ (length [boom] < 2)%nat
  ∧ _wait_for_stack 2 (_deploy_action (hook doomed_world))
      (Some SUBMITTED) (Some vpc) (Some "boom") doomed_world
    = (Raise (StackFailed "ns-vpc" (Some "boom")),
       mkWorld (hook doomed_world) []
         (events doomed_world
          ++ poll_events "HookDeployAction" vpc (Some SUBMITTED) SUBMITTED
               [boom]
          ++ [EvLog ERROR "vpc:failed (boom)"])).
Proof.
  assert (yields (_deploy_action (hook doomed_world)) vpc
            (default SUBMITTED (Some SUBMITTED)) (ext doomed_world)
            [boom] []) as Hy by by_run.
  assert (Forall (λ s, terminal s = false
                       ∧ reached (Some "boom") s = false) [SUBMITTED])
    as Hpre by (repeat constructor).
  do 2 (split; [done|]). split; [exact Hy|]. split; [exact Hpre|].
  do 2 (split; [done|]). split; [simpl; lia|].
  exact (failed_raises_whatever_till_reason
           (_deploy_action (hook doomed_world)) (Some vpc) vpc
           (Some SUBMITTED) (Some "boom") [SUBMITTED] boom [boom] []
           doomed_world 2 eq_refl eq_refl Hy Hpre eq_refl
           ltac:(simpl; lia)).
Defined.

(** X8 on an action that answers SUBMITTED for ever. *)
Lemma polling_has_no_timeout_witness :
  or_else (Some vpc) (stack (hook stuck_world)) = Some vpc
  ∧ (∀ st x, ∃ s' x',
       run (_deploy_action (hook stuck_world)) vpc st x = (Ok s', x')
       ∧ terminal s' = false ∧ reached None s' = false)
  ∧ terminal (default SUBMITTED (Some SUBMITTED)) = false
  ∧ reached None (default SUBMITTED (Some SUBMITTED)) = false
  ∧ ∀ fuel, ∃ w',
      _wait_for_stack fuel (_deploy_action (hook stuck_world))
        (Some SUBMITTED) (Some vpc) None stuck_world = (OutOfFuel, w')
      ∧ length (runs (events w'))
        = (length (runs (events stuck_world)) + fuel)%nat.
Proof.
  assert (∀ st x, ∃ s' x',
       run (_deploy_action (hook stuck_world)) vpc st x = (Ok s', x')
       ∧ terminal s' = false ∧ reached None s' = false) as Hgo.
  { intros st x. exists SUBMITTED, x. by repeat split. }
  split; [done|]. split; [exact Hgo|]. do 2 (split; [done|]).
  exact (polling_has_no_timeout (_deploy_action (hook stuck_world))
           (Some vpc) vpc (Some SUBMITTED) None stuck_world
           eq_refl Hgo eq_refl eq_refl).
Defined.

(** X10 on a stack that is SUBMITTED and then COMPLETE, no reason given. *)
Lemma steady_reason_logs_two_lines_witness :
  or_else None (stack (hook holding_world)) = Some vpc
  ∧ yields (_deploy_action (hook holding_world)) vpc PENDING
      (ext holding_world) ([SUBMITTED] ++ [COMPLETE]) []
  ∧ Forall (λ s, terminal s = false) [SUBMITTED]
  ∧ Forall (λ s, Status.reason s
                 = Status.reason (hd COMPLETE [SUBMITTED])) [SUBMITTED]
  ∧ Status.eqb (hd COMPLETE [SUBMITTED]) SKIPPED = false
  ∧ terminal COMPLETE = true
  ∧ (length [SUBMITTED] < 2)%nat
  ∧ ∃ evs,
      events (_run_stack_action 2 (_deploy_action (hook holding_world))
                None true holding_world).2
      = events holding_world ++ evs
      ∧ log_lines evs
        = [(NOTICE, "vpc:submitted"); (SUCCESS, "vpc:complete")].
Proof.
  assert (yields (_deploy_action (hook holding_world)) vpc PENDING
            (ext holding_world) ([SUBMITTED] ++ [COMPLETE]) [])
    as Hy by by_run.
  assert (Forall (λ s, terminal s = false) [SUBMITTED])
    as Hpre by (repeat constructor).
  assert (Forall (λ s, Status.reason s
                       = Status.reason (hd COMPLETE [SUBMITTED]))
            [SUBMITTED]) as Hsame by (repeat constructor).
  split; [done|]. split; [exact Hy|]. split; [exact Hpre|].
  split; [exact Hsame|]. do 2 (split; [done|]). split; [simpl; lia|].
  exact (steady_reason_logs_two_lines (_deploy_action (hook holding_world))
           None vpc [SUBMITTED] COMPLETE [] holding_world 2
           eq_refl Hy Hpre Hsame eq_refl eq_refl ltac:(simpl; lia)).
Defined.

(** X12 on the hook of the spec's tag example: after [__init__] the
    keys of the context are keys of [args.tags], so the generated stack
    has the tags of the property. *)
Lemma generated_stack_carries_the_tags_witness :
  let self :=
    scripted_hook {[ "a" := "1"; "b" := "2" ]}
                  {[ "tags" := {[ "b" := "3"; "c" := "4" ]} ]} None in
  dom (CfnginContext.tags (context self))
  ⊆ dom (HookArgsBaseModel.tags (args self))
  ∧ Stack.tags (generate_stack self (String.app "ns-")) = tags self.
Proof.
  intros self.
  assert (dom (CfnginContext.tags (context self))
          ⊆ dom (HookArgsBaseModel.tags (args self))) as Hdom.
  { unfold self, scripted_hook. cbn [args context].
    rewrite __init___args_tags, dom_union_L. apply union_subseteq_l. }
  split; [exact Hdom|].
  exact (proj2 (proj1 (proj2 (proj2 (proj2 (proj2
           (generated_stack_carries_the_tags self (String.app "ns-")))))))
           Hdom).
Defined.

(** X14 on the module of the base class. *)
Lemma template_description_tells_the_suffix_witness :
  truthy (Some EmptyString) = false
  ∧ get_template_description "runway.cfngin.hooks.base" (Some EmptyString)
    = "Automatically generated by runway.cfngin.hooks.base"
  ∧ "vpc" ≠ EmptyString
  ∧ get_template_description "runway.cfngin.hooks.base" (Some "vpc")
    ≠ get_template_description "runway.cfngin.hooks.base" None.
Proof.
  split; [done|].
  split; [exact (proj1 (template_description_tells_the_suffix
                          "runway.cfngin.hooks.base")
                   (Some EmptyString) eq_refl)|].
  split; [done|].
  exact (proj1 (proj2 (template_description_tells_the_suffix
                         "runway.cfngin.hooks.base")) "vpc" ltac:(done)).
Defined.
